(** * PostgresController: a shallow embedding of [postgres_contoller.py]

    The controller owns one psycopg2 connection, reconnects lazily at the
    start of every operation, runs literal SQL and bulk-loads a pandas
    DataFrame through [execute_values].  The Python class is embedded as
    state-passing functions over an explicit store: the controller's fields,
    the connection objects created so far, the database with its open
    transaction, the log and the driver calls made.  psycopg2, the server
    and the wall clock are an interface ([Driver]) the development is
    parametric in; [json.dumps] is written out for the values a DataFrame
    cell can hold. *)

From Stdlib Require Import String Ascii ZArith NArith List Bool Lia.
From Stdlib Require Import Decimal DecimalString DecimalFacts DecimalPos.
From stdpp Require Import base list strings.

Local Open Scope string_scope.
Local Open Scope list_scope.
Local Open Scope Z_scope.

(** ** Exceptions *)

(** What a call can raise.  [DriverError] stands for the psycopg2.Error
    family (OperationalError, ProgrammingError, ...) with the class name
    and the message the driver gave. *)
Inductive exn : Type :=
| TypeError (msg : string)
| ValueError (msg : string)
| DriverError (cls : string) (msg : string).

(** ** Python values *)

(** A float is kept by the case split [json.encoder.floatstr] makes on it:
    the three values that are not numbers of JSON, or a finite float given
    by the text [float.__repr__] prints for it. *)
Inductive pyfloat : Type :=
| FNaN
| FPosInf
| FNegInf
| FFinite (repr : string).

(** The values a DataFrame cell or a JSON document is built from.  A dict
    is its items in insertion order; [PyObject] is a value of any other
    type (set, bytes, datetime, ...), known by its type name. *)
#[warnings="-register-all"]
Inductive pyval : Type :=
| PyNone
| PyBool (b : bool)
| PyInt (z : Z)
| PyFloat (f : pyfloat)
| PyStr (s : string)
| PyList (l : list pyval)
| PyTuple (l : list pyval)
| PyDict (items : list (pyval * pyval))
| PyObject (type_name : string).

(** ** Text helpers *)

(** The double quote and the backslash. *)
Definition dquote : ascii := "034"%char.
Definition backslash : ascii := "092"%char.

(** [sep.join(parts)] *)
Fixpoint join (sep : string) (parts : list string) : string :=
  match parts with
  | [] => ""
  | [x] => x
  | x :: rest => x +:+ sep +:+ join sep rest
  end.

(** [int.__repr__]: decimal digits, a minus sign when negative. *)
Definition int_repr (z : Z) : string := NilZero.string_of_int (Z.to_int z).

(** The type name Python reports for a value, as error messages use it. *)
Definition type_name_of (o : pyval) : string :=
  match o with
  | PyNone => "NoneType"
  | PyBool _ => "bool"
  | PyInt _ => "int"
  | PyFloat _ => "float"
  | PyStr _ => "str"
  | PyList _ => "list"
  | PyTuple _ => "tuple"
  | PyDict _ => "dict"
  | PyObject t => t
  end.

(** ** [json.dumps(obj, ensure_ascii=False)] *)

Module Json.

(** The lower-case hexadecimal digit of a number below 16. *)
Definition hex_digit (n : N) : ascii :=
  if (n <? 10)%N then ascii_of_N (48 + n) else ascii_of_N (87 + n).

(** [ESCAPE_DCT] of json.encoder: backslash, double quote, the five named
    control characters, and a four-digit unicode escape for every other
    character below 0x20.  Every other character stands for itself. *)
Definition escape_char (c : ascii) : string :=
  let n := N_of_ascii c in
  if (n =? 92)%N then String backslash (String backslash "")
  else if (n =? 34)%N then String backslash (String dquote "")
  else if (n =? 8)%N then String backslash "b"
  else if (n =? 12)%N then String backslash "f"
  else if (n =? 10)%N then String backslash "n"
  else if (n =? 13)%N then String backslash "r"
  else if (n =? 9)%N then String backslash "t"
  else if (n <? 32)%N then
    String backslash
      (String "u" (String "0" (String "0"
        (String (hex_digit (n / 16)) (String (hex_digit (n mod 16)) "")))))
  else String c "".

Fixpoint escape (s : string) : string :=
  match s with
  | EmptyString => ""
  | String c rest => escape_char c +:+ escape rest
  end.

(** [py_encode_basestring]: the escaped text between double quotes.  With
    [ensure_ascii=False] this is the string encoder [dumps] uses. *)
Definition py_encode_basestring (s : string) : string :=
  String dquote (escape s +:+ String dquote "").

(** [floatstr] with [allow_nan] left at its default, true. *)
Definition floatstr (f : pyfloat) : string :=
  match f with
  | FNaN => "NaN"
  | FPosInf => "Infinity"
  | FNegInf => "-Infinity"
  | FFinite r => r
  end.

(** The text of a dict key before it is quoted, in the order
    [_iterencode_dict] tests the key's type. *)
Definition key_text (k : pyval) : exn + string :=
  match k with
  | PyStr s => inr s
  | PyFloat f => inr (floatstr f)
  | PyBool true => inr "true"
  | PyBool false => inr "false"
  | PyNone => inr "null"
  | PyInt z => inr (int_repr z)
  | _ => inl (TypeError ("keys must be str, int, float, bool or None, not "
                         +:+ type_name_of k))
  end.

(** [_iterencode] with the chunks concatenated.  The separators are the
    defaults, a comma and a colon each followed by one space; the first
    error met in traversal order is the one raised. *)
Fixpoint iterencode (o : pyval) : exn + string :=
  let fix encode_list (l : list pyval) : exn + list string :=
    match l with
    | [] => inr []
    | x :: rest =>
        match iterencode x with
        | inl e => inl e
        | inr t =>
            match encode_list rest with
            | inl e => inl e
            | inr ts => inr (t :: ts)
            end
        end
    end in
  match o with
  | PyStr s => inr (py_encode_basestring s)
  | PyNone => inr "null"
  | PyBool true => inr "true"
  | PyBool false => inr "false"
  | PyInt z => inr (int_repr z)
  | PyFloat f => inr (floatstr f)
  | PyList l | PyTuple l =>
      match encode_list l with
      | inl e => inl e
      | inr ts => inr ("[" +:+ join ", " ts +:+ "]")
      end
  | PyDict items =>
      let fix encode_items (l : list (pyval * pyval)) : exn + list string :=
        match l with
        | [] => inr []
        | (k, v) :: rest =>
            match key_text k with
            | inl e => inl e
            | inr kt =>
                match iterencode v with
                | inl e => inl e
                | inr vt =>
                    match encode_items rest with
                    | inl e => inl e
                    | inr ts =>
                        inr ((py_encode_basestring kt +:+ ": " +:+ vt) :: ts)
                    end
                end
            end
        end in
      match encode_items items with
      | inl e => inl e
      | inr ts => inr ("{" +:+ join ", " ts +:+ "}")
      end
  | PyObject t =>
      inl (TypeError ("Object of type " +:+ t +:+ " is not JSON serializable"))
  end.

(** The loops of [iterencode] over the items of a list and of a dict. *)
Fixpoint encode_list (l : list pyval) : exn + list string :=
  match l with
  | [] => inr []
  | x :: rest =>
      match iterencode x with
      | inl e => inl e
      | inr t =>
          match encode_list rest with
          | inl e => inl e
          | inr ts => inr (t :: ts)
          end
      end
  end.

Fixpoint encode_items (l : list (pyval * pyval)) : exn + list string :=
  match l with
  | [] => inr []
  | (k, v) :: rest =>
      match key_text k with
      | inl e => inl e
      | inr kt =>
          match iterencode v with
          | inl e => inl e
          | inr vt =>
              match encode_items rest with
              | inl e => inl e
              | inr ts => inr ((py_encode_basestring kt +:+ ": " +:+ vt) :: ts)
              end
          end
      end
  end.


End Json.


(** ** JSON texts (RFC 8259) *)

Module JsonGrammar.

Definition is_ws (c : ascii) : bool :=
  let n := N_of_ascii c in
  ((n =? 32) || (n =? 9) || (n =? 10) || (n =? 13))%N.

Fixpoint all_ws (s : string) : bool :=
  match s with
  | EmptyString => true
  | String c rest => is_ws c && all_ws rest
  end.













End JsonGrammar.

(** ** Values [json.dumps] turns into JSON *)








(** A decimal numeral that starts with a digit other than 0. *)
Definition nonzero_head (u : uint) : Prop :=
  match u with
  | Nil | D0 _ => False
  | _ => True
  end.











(** ** Formatting helpers of the log messages *)

Definition newline : string := String "010"%char "".

(** [str.upper] on the ASCII letters; other characters are kept. *)
Definition upper_char (c : ascii) : ascii :=
  let n := N_of_ascii c in
  if ((97 <=? n) && (n <=? 122))%N then ascii_of_N (n - 32) else c.

Fixpoint upper (s : string) : string :=
  match s with
  | EmptyString => ""
  | String c rest => String (upper_char c) (upper rest)
  end.

(** Digits from the least significant one, an underscore after every
    third digit that has a digit after it. *)
Fixpoint group_thousands (rev_digits : list ascii) (filled : nat) : list ascii :=
  match rev_digits with
  | [] => []
  | d :: rest =>
      if (filled =? 3)%nat then "_"%char :: d :: group_thousands rest 1
      else d :: group_thousands rest (S filled)
  end.

(** The format specification [_d]: decimal with an underscore between
    groups of three digits. *)
Definition format_underscore_d (n : Z) : string :=
  let digits := list_ascii_of_string (int_repr (Z.abs n)) in
  let grouped := string_of_list_ascii (rev (group_thousands (rev digits) 0)) in
  if n <? 0 then String "-"%char grouped else grouped.

(** A text without its underscores. *)
Fixpoint without_underscores (s : string) : string :=
  match s with
  | EmptyString => ""
  | String c rest =>
      if (N_of_ascii c =? 95)%N then without_underscores rest
      else String c (without_underscores rest)
  end.

Definition not_underscore (c : ascii) : bool := negb (N_of_ascii c =? 95)%N.

(** [timedelta.seconds] of a difference given in microseconds: the seconds
    within the day, the days being a field of their own. *)
Definition timedelta_seconds (delta_us : Z) : Z := (delta_us / 1000000) mod 86400.

(** ** The store *)

(** A connection object is named by its index in the list of connections
    created so far. *)
Definition handle : Type := nat.

(** The arguments [__init__] keeps for [psycopg2.connect]. *)
Record ConnectionConfig : Type := mkConfig {
  host : string + Z;
  port : Z;
  user : string;
  password : string;
  database : string }.

(** An item of [cursor.description]; [desc[0]] is the column name. *)
Record Column : Type := mkColumn { col_name : string; col_type_code : Z }.

(** What a statement leaves in the cursor: [description], and the rows
    [fetchall] returns.  A statement without a result set leaves None. *)
Definition ResultSet : Type := option (list Column * list (list pyval)).

(** [pd.DataFrame]: the column labels and the rows of [df.values]. *)
Record DataFrame : Type := mkDataFrame {
  columns : list string;
  values : list (list pyval) }.

(** The calls made to the driver, each with the error it raised if any. *)
Inductive call : Type :=
| CConnect (cfg : ConnectionConfig) (raised : option exn)
| CExecute (h : handle) (query : string) (raised : option exn)
| CExecuteValues (h : handle) (query : string) (argslist : list (list pyval))
                 (page_size : Z)
| CRoundTrip (h : handle) (query : string) (page : list (list pyval))
             (raised : option exn)
| CCommit (h : handle)
| CRollback (h : handle)
| CClose (h : handle).

Definition raised_by (c : call) : option exn :=
  match c with
  | CConnect _ r | CExecute _ _ r | CRoundTrip _ _ _ r => r
  | _ => None
  end.

Definition is_connect (c : call) : bool :=
  match c with CConnect _ _ => true | _ => false end.


Definition is_round_trip (c : call) : bool :=
  match c with CRoundTrip _ _ _ _ => true | _ => false end.

(** Everything outside the controller object: the [closed] attribute of
    each connection object, the committed database and the working copy of
    the open transaction, the number of open cursors, the driver calls so
    far, the records handed to the logger, and how often the clock was
    read. *)
Record World (DB : Type) : Type := mkWorld {
  handles : list Z;
  db : DB;
  txn : option DB;
  cursors : nat;
  calls : list call;
  log : list string;
  clock_reads : nat }.

Arguments mkWorld {DB}.
Arguments handles {DB}.
Arguments db {DB}.
Arguments txn {DB}.
Arguments cursors {DB}.
Arguments calls {DB}.
Arguments log {DB}.
Arguments clock_reads {DB}.

(** psycopg2, the server behind it and the wall clock.  [drv_connect] tells
    whether [psycopg2.connect] raises; [drv_execute] runs one statement on
    the transaction's view of the database; [drv_execute_page] runs the
    INSERT [execute_values] builds for one page; [drv_now] is the n-th
    reading of the clock, in microseconds. *)
Class Driver (DB : Type) : Type := mkDriver {
  drv_connect : ConnectionConfig -> World DB -> option exn;
  drv_execute : string -> DB -> exn + (DB * ResultSet);
  drv_execute_page : string -> list (list pyval) -> DB -> exn + DB;
  drv_now : nat -> Z }.

(** The fields of a PostgresController. *)
Record PostgresController : Type := mkController {
  config : ConnectionConfig;
  conn : option handle;
  is_reconnect : bool;
  reconnect_number : Z }.

(** The controller object and its surroundings. *)
Record Sys (DB : Type) : Type := mkSys {
  self : PostgresController;
  world : World DB }.

Arguments mkSys {DB}.
Arguments self {DB}.
Arguments world {DB}.

(** A method body: it reads and updates the store, and returns a value or
    raises.  The store is kept when it raises, as Python keeps mutations. *)
Definition M (DB A : Type) : Type := Sys DB -> (exn + A) * Sys DB.

Definition ret {DB A} (a : A) : M DB A := fun s => (inr a, s).

Definition raise {DB A} (e : exn) : M DB A := fun s => (inl e, s).

Definition bind {DB A B} (m : M DB A) (k : A -> M DB B) : M DB B :=
  fun s =>
    match m s with
    | (inl e, s') => (inl e, s')
    | (inr a, s') => k a s'
    end.

Notation "x <~ m ;; k" := (bind m (fun x => k))
  (at level 100, m at next level, right associativity).
Notation "m ;;; k" := (bind m (fun _ => k))
  (at level 100, right associativity).

Section Model.

Context {DB : Type} `{drv : Driver DB}.

(** *** Store updates *)

Definition record_call (c : call) (w : World DB) : World DB :=
  mkWorld (handles w) (db w) (txn w) (cursors w) (calls w ++ [c]) (log w)
          (clock_reads w).

Definition set_handles (hs : list Z) (w : World DB) : World DB :=
  mkWorld hs (db w) (txn w) (cursors w) (calls w) (log w) (clock_reads w).

Definition set_txn (t : option DB) (w : World DB) : World DB :=
  mkWorld (handles w) (db w) t (cursors w) (calls w) (log w) (clock_reads w).

Definition set_db (d : DB) (w : World DB) : World DB :=
  mkWorld (handles w) d (txn w) (cursors w) (calls w) (log w) (clock_reads w).

Definition set_cursors (n : nat) (w : World DB) : World DB :=
  mkWorld (handles w) (db w) (txn w) n (calls w) (log w) (clock_reads w).

Definition add_log (msg : string) (w : World DB) : World DB :=
  mkWorld (handles w) (db w) (txn w) (cursors w) (calls w) (log w ++ [msg])
          (clock_reads w).

Definition read_clock (w : World DB) : World DB :=
  mkWorld (handles w) (db w) (txn w) (cursors w) (calls w) (log w)
          (S (clock_reads w)).

Definition on_world (f : World DB -> World DB) (s : Sys DB) : Sys DB :=
  mkSys (self s) (f (world s)).

(** The database as the open transaction sees it. *)
Definition current_db (w : World DB) : DB :=
  match txn w with
  | Some d => d
  | None => db w
  end.

(** *** The driver's side *)

(** [connection.commit()] *)
Definition commit (h : handle) (w : World DB) : World DB :=
  record_call (CCommit h) (set_txn None (set_db (current_db w) w)).

(** [connection.rollback()] *)
Definition rollback (h : handle) (w : World DB) : World DB :=
  record_call (CRollback h) (set_txn None w).

(** [with self.conn as conn: body]: the connection's context manager
    commits when the body ends normally (a return included) and rolls back
    when it raises; the connection stays open.  The block is entered right
    after [_check_and_reconnect] left an open connection in [self.conn]. *)
Definition with_connection {A} (body : handle -> M DB A) : M DB A :=
  fun s =>
    match conn (self s) with
    | None =>
        (inl (TypeError
           "'NoneType' object does not support the context manager protocol"),
         s)
    | Some h =>
        match body h s with
        | (inr a, s') => (inr a, on_world (commit h) s')
        | (inl e, s') => (inl e, on_world (rollback h) s')
        end
    end.

(** [with conn.cursor() as cursor: body]: the cursor is closed on both
    ways out.  A cursor is named by its connection. *)
Definition with_cursor {A} (h : handle) (body : handle -> M DB A) : M DB A :=
  fun s =>
    let s1 := on_world (fun w => set_cursors (S (cursors w)) w) s in
    let '(r, s2) := body h s1 in
    (r, on_world (fun w => set_cursors (Nat.pred (cursors w)) w) s2).

(** [cursor.execute(query)] *)
Definition cursor_execute (h : handle) (query : string) : M DB ResultSet :=
  fun s =>
    let w := world s in
    match drv_execute query (current_db w) with
    | inl e => (inl e, on_world (record_call (CExecute h query (Some e))) s)
    | inr (d, r) =>
        (inr r,
         on_world (fun w => set_txn (Some d)
                              (record_call (CExecute h query None) w)) s)
    end.

(** [_paginate(seq, page_size)] of psycopg2.extras for a positive page
    size: [room] items are still to be added to the page being filled,
    which is kept newest first. *)
Fixpoint paginate {A} (page_size : nat) (seq : list A) (page : list A)
    (room : nat) : list (list A) :=
  match seq with
  | [] => match page with [] => [] | _ => [rev_append page []] end
  | x :: rest =>
      match room with
      | S (S r) => paginate page_size rest (x :: page) (S r)
      | _ => rev_append (x :: page) [] :: paginate page_size rest [] page_size
      end
  end.

(** The loop of [execute_values]: one statement per page, stopping at the
    first that raises. *)
Fixpoint send_pages (h : handle) (sql : string) (pages : list (list (list pyval)))
    : M DB unit :=
  match pages with
  | [] => ret tt
  | page :: rest =>
      fun s =>
        match drv_execute_page sql page (current_db (world s)) with
        | inl e =>
            (inl e, on_world (record_call (CRoundTrip h sql page (Some e))) s)
        | inr d =>
            send_pages h sql rest
              (on_world (fun w => set_txn (Some d)
                                   (record_call (CRoundTrip h sql page None) w)) s)
        end
  end.

(** [execute_values(cursor, sql, argslist, page_size=page_size)] *)
Definition execute_values (h : handle) (sql : string)
    (argslist : list (list pyval)) (page_size : Z) : M DB unit :=
  fun s =>
    send_pages h sql
      (paginate (Z.to_nat page_size) argslist [] (Z.to_nat page_size))
      (on_world (record_call (CExecuteValues h sql argslist page_size)) s).

(** [datetime.now()], in microseconds *)
Definition datetime_now : M DB Z :=
  fun s => (inr (drv_now (clock_reads (world s))), on_world read_clock s).

(** [logger.warning(msg)]: the root logger is configured at its default
    level, WARNING, so the record is written. *)
Definition logger_warning (msg : string) : M DB unit :=
  fun s => (inr tt, on_world (add_log msg) s).

(** *** The methods of PostgresController *)

Definition __init__ (host : string + Z) (port : Z) (user password database : string)
    : PostgresController :=
  mkController (mkConfig host port user password database) None false 0.

Definition set_conn (h : handle) (c : PostgresController) : PostgresController :=
  mkController (config c) (Some h) (is_reconnect c) (reconnect_number c).

(** [self.conn = psycopg2.connect(...)]: when connect raises, the
    assignment does not happen. *)
Definition _connect : M DB unit :=
  fun s =>
    let cfg := config (self s) in
    let w := world s in
    match drv_connect cfg w with
    | Some e => (inl e, on_world (record_call (CConnect cfg (Some e))) s)
    | None =>
        (inr tt,
         mkSys (set_conn (length (handles w)) (self s))
               (set_handles (handles w ++ [0])
                  (record_call (CConnect cfg None) w)))
    end.

(** [self.conn is None or self.conn.closed != 0] *)
Definition _connection_is_closed (s : Sys DB) : bool :=
  match conn (self s) with
  | None => true
  | Some h =>
      match handles (world s) !! h with
      | Some c => negb (c =? 0)
      | None => true
      end
  end.

(** [self.conn.close()] in [__del__] *)
Definition close (h : handle) (w : World DB) : World DB :=
  record_call (CClose h) (set_handles (<[h := 1]> (handles w)) w).

Definition __del__ (s : Sys DB) : Sys DB :=
  if negb (_connection_is_closed s)
  then match conn (self s) with
       | Some h => on_world (close h) s
       | None => s
       end
  else s.

Definition _check_and_reconnect : M DB unit :=
  fun s =>
    if _connection_is_closed s then
      let c := self s in
      let c' :=
        if is_reconnect c
        then mkController (config c) (conn c) (is_reconnect c)
                          (reconnect_number c + 1)
        else mkController (config c) (conn c) true (reconnect_number c) in
      _connect (mkSys c' (world s))
    else (inr tt, s).

Definition select_with_columns (query : string)
    : M DB (list (list pyval) * list string) :=
  _check_and_reconnect ;;;
  with_connection (fun conn =>
    res <~ with_cursor conn (fun cursor =>
      r <~ cursor_execute cursor query ;;
      match r with
      | None => raise (TypeError "'NoneType' object is not iterable")
      | Some (description, fetched) =>
          let columns := map col_name description in
          let rows := fetched in
          ret (rows, columns)
      end) ;;
    let '(rows, columns) := res in
    let rows := map (fun row => row) rows in
    ret (rows, columns)).

Definition select (query : string) : M DB (list (list pyval)) :=
  res <~ select_with_columns query ;;
  let '(rows, _) := res in
  ret rows.

Definition execute (query : string) : M DB unit :=
  _check_and_reconnect ;;;
  with_connection (fun conn =>
    with_cursor conn (fun cursor =>
      _ <~ cursor_execute cursor query ;;
      ret tt)).

Definition _split_to_rows_columns (df : DataFrame)
    : list string * list (list pyval) :=
  (columns df, map (fun row => row) (values df)).

(** The first record [insert_dataframe] logs. *)
Definition inserted_message (table_name : string) (rows : list (list pyval))
    (seconds : Z) : string :=
  "Data inserted in table: '" +:+ upper table_name +:+ "'"
  +:+ newline +:+ format_underscore_d (Z.of_nat (length rows)) +:+ " rows inserted"
  +:+ newline +:+ "Time: " +:+ int_repr seconds +:+ " seconds".

(** The second record. *)
Definition finished_message (seconds : Z) : string :=
  "Pandas job is finished. Total time: " +:+ int_repr seconds +:+ " seconds".

(** [table_schema] is None when the caller leaves the argument out. *)
Definition insert_dataframe (df : DataFrame) (table_name : string)
    (table_schema : option string) : M DB unit :=
  let table_schema := default "public" table_schema in
  _check_and_reconnect ;;;
  let '(columns, rows) := _split_to_rows_columns df in
  start <~ datetime_now ;;
  with_connection (fun conn =>
    with_cursor conn (fun cursor =>
      let query :=
        "INSERT INTO " +:+ table_schema +:+ "." +:+ table_name
        +:+ " (" +:+ join ", " columns +:+ ") VALUES %s" in
      execute_values cursor query rows 50000 ;;;
      t1 <~ datetime_now ;;
      let duration := t1 - start in
      logger_warning
        (inserted_message table_name rows (timedelta_seconds duration)) ;;;
      t2 <~ datetime_now ;;
      let total_duration := t2 - start in
      logger_warning (finished_message (timedelta_seconds total_duration)))).

(** *** Runs *)

(** A call of one of the four public operations. *)
Inductive op : Type :=
| OpSelect (query : string)
| OpSelectWithColumns (query : string)
| OpExecute (query : string)
| OpInsertDataframe (df : DataFrame) (table_name : string)
                    (table_schema : option string).

(** The value an operation returns. *)
Inductive result : Type :=
| RRows (rows : list (list pyval))
| RRowsColumns (rows : list (list pyval)) (columns : list string)
| RNone.

Definition run_op (o : op) : M DB result :=
  match o with
  | OpSelect q => rows <~ select q ;; ret (RRows rows)
  | OpSelectWithColumns q =>
      res <~ select_with_columns q ;; ret (RRowsColumns (fst res) (snd res))
  | OpExecute q => execute q ;;; ret RNone
  | OpInsertDataframe df t sch => insert_dataframe df t sch ;;; ret RNone
  end.

(** What can happen to a controller: one of its operations is called, a
    connection is closed from outside (by the peer, or by a holder of
    [self.conn]), or [__del__] runs. *)
Inductive step : Sys DB -> Sys DB -> Prop :=
| step_op o s : step s (snd (run_op o s))
| step_close h c s :
    c <> 0 -> (h < length (handles (world s)))%nat ->
    step s (on_world (fun w => set_handles (<[h := c]> (handles w)) w) s)
| step_del s : step s (__del__ s).

(** The world a new controller finds: no connection object, no call yet. *)
Definition initial_world (d : DB) : World DB := mkWorld [] d None 0 [] [] 0.

Inductive reachable (c0 : PostgresController) (d0 : DB) : Sys DB -> Prop :=
| reach_init : reachable c0 d0 (mkSys c0 (initial_world d0))
| reach_step s s' : reachable c0 d0 s -> step s s' -> reachable c0 d0 s'.

(** *** Observations *)

(** The driver calls a run added to the store. *)
Definition new_calls (before after : Sys DB) : list call :=
  drop (length (calls (world before))) (calls (world after)).

(** How many times [psycopg2.connect] was called. *)
Definition connect_attempts (w : World DB) : nat :=
  length (List.filter is_connect (calls w)).

(** The connection objects that are open. *)
Definition is_open (w : World DB) (h : handle) : Prop := handles w !! h = Some 0.

End Model.

(** ** Vocabulary of the proofs *)

Section Vocabulary.

Context {DB : Type} `{drv : Driver DB}.

(** The controller as [_check_and_reconnect] leaves it before connecting. *)
Definition counted (c : PostgresController) : PostgresController :=
  if is_reconnect c
  then mkController (config c) (conn c) true (reconnect_number c + 1)
  else mkController (config c) (conn c) true (reconnect_number c).

(** The three ways through [_check_and_reconnect]. *)
Inductive check_outcome (s : Sys DB) : (exn + unit) * Sys DB -> Prop :=
| check_was_open :
    _connection_is_closed s = false -> check_outcome s (inr tt, s)
| check_failed e :
    _connection_is_closed s = true ->
    drv_connect (config (self s)) (world s) = Some e ->
    check_outcome s
      (inl e,
       mkSys (counted (self s))
             (record_call (CConnect (config (self s)) (Some e)) (world s)))
| check_connected :
    _connection_is_closed s = true ->
    drv_connect (config (self s)) (world s) = None ->
    check_outcome s
      (inr tt,
       mkSys (set_conn (length (handles (world s))) (counted (self s)))
             (set_handles (handles (world s) ++ [0])
                (record_call (CConnect (config (self s)) None) (world s)))).

(** The calls [new] extend [before] to [after]; none of them is a connect,
    and one that raised gave the run its result. *)
Definition extends {A} (r : exn + A) (before after : World DB) : Prop :=
  exists new,
    calls after = calls before ++ new
    /\ Forall (fun c => is_connect c = false) new
    /\ forall c e, In c new -> raised_by c = Some e -> r = inl e.

(** A computation that leaves the controller, the connection objects and
    the committed database alone. *)
Definition inner {A} (m : M DB A) : Prop :=
  forall s,
    self (snd (m s)) = self s
    /\ handles (world (snd (m s))) = handles (world s)
    /\ db (world (snd (m s))) = db (world s)
    /\ extends (fst (m s)) (world s) (world (snd (m s))).

(** A computation that may commit, but leaves the committed database alone
    and no transaction open when it raises. *)
Definition outer {A} (m : M DB A) : Prop :=
  forall s,
    self (snd (m s)) = self s
    /\ handles (world (snd (m s))) = handles (world s)
    /\ (forall e, fst (m s) = inl e ->
        db (world (snd (m s))) = db (world s)
        /\ (txn (world s) = None -> txn (world (snd (m s))) = None))
    /\ extends (fst (m s)) (world s) (world (snd (m s))).

(** An operation is the check, then a body that never connects: what the
    body does is stated from the store the check left. *)
Definition after_check {A} (m : M DB A) : Prop :=
  forall s,
    match _check_and_reconnect s with
    | (inl e, s1) => m s = (inl e, s1)
    | (inr _, s1) =>
        self (snd (m s)) = self s1
        /\ handles (world (snd (m s))) = handles (world s1)
        /\ (forall e, fst (m s) = inl e ->
            db (world (snd (m s))) = db (world s1)
            /\ (txn (world s1) = None -> txn (world (snd (m s))) = None))
        /\ extends (fst (m s)) (world s1) (world (snd (m s)))
    end.

(** Every open connection object is the one [self.conn] names. *)
Definition one_open_handle (s : Sys DB) : Prop :=
  forall h, is_open (world s) h -> conn (self s) = Some h.

(** [reconnect_number] against the connect calls made so far. *)
Definition counts_attempts (s : Sys DB) : Prop :=
  (is_reconnect (self s) = false ->
     reconnect_number (self s) = 0 /\ connect_attempts (world s) = 0%nat)
  /\ (is_reconnect (self s) = true ->
     (1 <= connect_attempts (world s))%nat
     /\ reconnect_number (self s) = Z.of_nat (connect_attempts (world s)) - 1).

(** What the pages of one [execute_values] make of a database: the
    database after the last page, or the error of the first page that is
    refused. *)
Fixpoint run_pages (sql : string) (pages : list (list (list pyval))) (d : DB)
    : exn + DB :=
  match pages with
  | [] => inr d
  | page :: rest =>
      match drv_execute_page sql page d with
      | inl e => inl e
      | inr d' => run_pages sql rest d'
      end
  end.

(** The statement [insert_dataframe] builds. *)
Definition insert_statement (df : DataFrame) (table_name : string)
    (table_schema : option string) : string :=
  "INSERT INTO " +:+ default "public" table_schema +:+ "." +:+ table_name
  +:+ " (" +:+ join ", " (columns df) +:+ ") VALUES %s".

(** The pages [execute_values] cuts the rows of a frame into. *)
Definition pages_of (df : DataFrame) : list (list (list pyval)) :=
  paginate (Z.to_nat 50000) (values df) [] (Z.to_nat 50000).

(** The connect calls among the driver calls are made with [cfg]. *)
Definition connects_with (cfg : ConnectionConfig) (c : call) : Prop :=
  match c with
  | CConnect cfg' _ => cfg' = cfg
  | _ => True
  end.

End Vocabulary.

(** ** Reading the log file *)




(** ** A small driver to run the model on *)

Module Demo.

(** One table of one column; the server listens on port 5432 only. *)
Definition DB : Type := list (list pyval).

Definition connect (cfg : ConnectionConfig) (w : World DB) : option exn :=
  if port cfg =? 5432 then None
  else Some (DriverError "OperationalError" "connection refused").

Definition run (query : string) (d : DB) : exn + (DB * ResultSet) :=
  if String.eqb query "SELECT a FROM t" then inr (d, Some ([mkColumn "a" 23], d))
  else if String.eqb query "DELETE FROM t" then inr ([], None)
  else inl (DriverError "ProgrammingError" "syntax error").

Definition run_page (sql : string) (page : list (list pyval)) (d : DB)
    : exn + DB :=
  if forallb (fun row => (length row =? 1)%nat) page then inr (d ++ page)
  else inl (DriverError "ProgrammingError"
              "INSERT has more expressions than target columns").

(** The clock advances by a second and a half between two readings. *)
Definition now (n : nat) : Z := Z.of_nat n * 1500000.

Definition driver : Driver DB := mkDriver DB connect run run_page now.

Definition good : PostgresController :=
  __init__ (inl "localhost") 5432 "postgres" "secret" "main".

Definition unreachable_server : PostgresController :=
  __init__ (inl "localhost") 6543 "postgres" "secret" "main".

Definition fresh (c : PostgresController) : Sys DB := mkSys c (initial_world []).


Definition small_frame : DataFrame :=
  mkDataFrame ["a"] [[PyInt 1]; [PyInt 2]; [PyInt 3]].


(** A controller whose connection was opened once and is now closed. *)
Definition lost_connection : Sys DB :=
  mkSys (mkController (config good) (Some 0%nat) true 0)
        (mkWorld [1] [] None 0 [CConnect (config good) None] [] 0).

(** A new controller after one statement. *)
Definition after_delete : Sys DB :=
  snd (run_op (drv := driver) (OpExecute "DELETE FROM t")
         (fresh good)).

(** Two operations on a controller whose server cannot be reached. *)
Definition after_two_failures : Sys DB :=
  snd (run_op (drv := driver) (OpExecute "DELETE FROM t")
         (snd (run_op (drv := driver) (OpExecute "DELETE FROM t")
                 (fresh unreachable_server)))).


Definition after_small_insert : Sys DB :=
  snd (insert_dataframe (drv := driver) small_frame "events" None
         (fresh good)).



End Demo.

(** * Properties *)

(** ** The monad and the store *)

Section Frames.

Context {DB : Type} `{drv : Driver DB}.

Lemma bind_assoc {A B C} (m : M DB A) (f : A -> M DB B) (g : B -> M DB C) s :
  bind (bind m f) g s = bind m (fun a => bind (f a) g) s.
Proof.
  unfold bind. destruct (m s) as [[e | a] s1]; reflexivity.
Qed.

Lemma connect_attempts_record c (w : World DB) :
  connect_attempts (record_call c w)
  = (connect_attempts w + if is_connect c then 1 else 0)%nat.
Proof.
  unfold connect_attempts, record_call. simpl.
  rewrite List.filter_app, length_app. simpl.
  destruct (is_connect c); reflexivity.
Qed.

Lemma no_connect_filter (new : list call) :
  Forall (fun c => is_connect c = false) new -> List.filter is_connect new = [].
Proof.
  induction 1 as [| c l Hc _ IH]; simpl; [reflexivity |].
  rewrite Hc. exact IH.
Qed.

Lemma connect_attempts_app (w w' : World DB) new :
  calls w' = calls w ++ new ->
  Forall (fun c => is_connect c = false) new ->
  connect_attempts w' = connect_attempts w.
Proof.
  intros Hc Hn. unfold connect_attempts.
  rewrite Hc, List.filter_app, (no_connect_filter _ Hn), length_app. simpl. lia.
Qed.

Lemma new_calls_app (s s' : Sys DB) new :
  calls (world s') = calls (world s) ++ new -> new_calls s s' = new.
Proof.
  intros H. unfold new_calls. rewrite H. apply drop_app_length.
Qed.

(** *** What [_check_and_reconnect] does *)

Lemma check_open s :
  _connection_is_closed s = false -> _check_and_reconnect s = (inr tt, s).
Proof.
  intros H. unfold _check_and_reconnect. rewrite H. reflexivity.
Qed.

Lemma check_closed_fails s e :
  _connection_is_closed s = true ->
  drv_connect (config (self s)) (world s) = Some e ->
  _check_and_reconnect s
  = (inl e,
     mkSys (counted (self s))
           (record_call (CConnect (config (self s)) (Some e)) (world s))).
Proof.
  intros Hc He. unfold _check_and_reconnect, _connect, counted. rewrite Hc.
  destruct (is_reconnect (self s)) eqn:Hr; simpl; rewrite He; try rewrite Hr;
    reflexivity.
Qed.

Lemma check_closed_connects s :
  _connection_is_closed s = true ->
  drv_connect (config (self s)) (world s) = None ->
  _check_and_reconnect s
  = (inr tt,
     mkSys (set_conn (length (handles (world s))) (counted (self s)))
           (set_handles (handles (world s) ++ [0])
              (record_call (CConnect (config (self s)) None) (world s)))).
Proof.
  intros Hc He. unfold _check_and_reconnect, _connect, counted. rewrite Hc.
  destruct (is_reconnect (self s)) eqn:Hr; simpl; rewrite He; try rewrite Hr;
    reflexivity.
Qed.

Lemma check_cases s : check_outcome s (_check_and_reconnect s).
Proof.
  destruct (_connection_is_closed s) eqn:Hc.
  - destruct (drv_connect (config (self s)) (world s)) as [e |] eqn:He.
    + rewrite (check_closed_fails s e Hc He). now apply check_failed.
    + rewrite (check_closed_connects s Hc He). now apply check_connected.
  - rewrite (check_open s Hc). now apply check_was_open.
Qed.

(** *** What runs inside a [with] block *)

Lemma extends_refl {A} (r : exn + A) (w w' : World DB) :
  calls w' = calls w -> extends r w w'.
Proof.
  intros H. exists []. rewrite app_nil_r. split; [exact H |].
  split; [constructor |]. intros c e [].
Qed.

Lemma extends_one {A} (r : exn + A) (w w' : World DB) c :
  calls w' = calls w ++ [c] -> is_connect c = false ->
  (forall e, raised_by c = Some e -> r = inl e) ->
  extends r w w'.
Proof.
  intros H Hc Hr. exists [c]. split; [exact H |]. split.
  - constructor; [exact Hc | constructor].
  - intros c' e [<- | []]. apply Hr.
Qed.

Lemma extends_trans {A B} (a : A) (r : exn + B) (w1 w2 w3 : World DB) :
  extends (inr a : exn + A) w1 w2 -> extends r w2 w3 -> extends r w1 w3.
Proof.
  intros (n1 & H1 & F1 & R1) (n2 & H2 & F2 & R2).
  exists (n1 ++ n2). split; [rewrite H2, H1, app_assoc; reflexivity |].
  split; [apply Forall_app; split; assumption |].
  intros c e Hin Hr. apply in_app_or in Hin as [Hin | Hin].
  - specialize (R1 c e Hin Hr). discriminate.
  - exact (R2 c e Hin Hr).
Qed.

Lemma extends_raise {A B} (e0 : exn) (w1 w2 : World DB) :
  extends (inl e0 : exn + A) w1 w2 -> extends (inl e0 : exn + B) w1 w2.
Proof.
  intros (n & H & F & R). exists n. split; [exact H |]. split; [exact F |].
  intros c e Hin Hr. specialize (R c e Hin Hr). congruence.
Qed.

Lemma extends_snoc {A} (r : exn + A) (w1 w2 w3 : World DB) c :
  extends r w1 w2 -> calls w3 = calls w2 ++ [c] ->
  is_connect c = false -> raised_by c = None -> extends r w1 w3.
Proof.
  intros (n & H & F & R) H3 Hc Hr.
  exists (n ++ [c]). split; [rewrite H3, H, app_assoc; reflexivity |].
  split.
  { apply Forall_app. split; [exact F | constructor; [exact Hc | constructor]]. }
  intros c' e Hin Hr'. apply in_app_or in Hin as [Hin | [<- | []]].
  - exact (R c' e Hin Hr').
  - congruence.
Qed.

Lemma inner_ret {A} (a : A) : inner (DB := DB) (ret a).
Proof.
  intros s. simpl. repeat split. now apply extends_refl.
Qed.

Lemma inner_raise {A} e : inner (DB := DB) (raise e : M DB A).
Proof.
  intros s. simpl. repeat split. now apply extends_refl.
Qed.

Lemma inner_bind {A B} (m : M DB A) (k : A -> M DB B) :
  inner (DB := DB) m -> (forall a, inner (DB := DB) (k a)) ->
  inner (DB := DB) (bind m k).
Proof.
  intros Hm Hk s. specialize (Hm s). unfold bind.
  destruct (m s) as [[e | a] s1]; simpl in *.
  - destruct Hm as (H1 & H2 & H3 & H4). repeat split; try assumption.
    now apply (extends_raise (A := A)).
  - specialize (Hk a s1). destruct Hm as (H1 & H2 & H3 & H4).
    destruct Hk as (K1 & K2 & K3 & K4).
    repeat split; try congruence.
    exact (extends_trans a _ _ _ _ H4 K4).
Qed.

Lemma inner_with_cursor {A} h (body : handle -> M DB A) :
  inner (DB := DB) (body h) -> inner (DB := DB) (with_cursor h body).
Proof.
  intros Hb s. unfold with_cursor.
  specialize (Hb (on_world (fun w => set_cursors (S (cursors w)) w) s)).
  destruct (body h _) as [r s2]; simpl in *.
  destruct Hb as (H1 & H2 & H3 & n & H4 & H5 & H6).
  repeat split; try assumption. exists n. auto.
Qed.

Lemma inner_cursor_execute h q : inner (DB := DB) (cursor_execute h q).
Proof.
  intros s. unfold cursor_execute.
  destruct (drv_execute q (current_db (world s))) as [e | [d r]]; simpl;
    repeat split.
  - eapply extends_one; simpl; [reflexivity | reflexivity |].
    intros e' [= <-]. reflexivity.
  - eapply extends_one; simpl; [reflexivity | reflexivity |]. discriminate.
Qed.

Lemma inner_send_pages h sql pages : inner (DB := DB) (send_pages h sql pages).
Proof.
  induction pages as [| page rest IH]; [apply inner_ret |].
  intros s. simpl.
  destruct (drv_execute_page sql page (current_db (world s))) as [e | d].
  - simpl. repeat split.
    eapply extends_one; simpl; [reflexivity | reflexivity |].
    intros e' [= <-]. reflexivity.
  - match goal with |- context [send_pages h sql rest ?s1] =>
      specialize (IH s1); destruct (send_pages h sql rest s1) as [r s2] end.
    simpl in *. destruct IH as (H1 & H2 & H3 & H4).
    repeat split; try assumption.
    refine (extends_trans tt _ _ _ _ _ H4).
    eapply extends_one; simpl; [reflexivity | reflexivity | discriminate].
Qed.

Lemma inner_execute_values h sql rows size :
  inner (DB := DB) (execute_values h sql rows size).
Proof.
  intros s. unfold execute_values.
  match goal with |- context [send_pages h sql ?p ?s1] =>
    pose proof (inner_send_pages h sql p s1) as H;
    destruct (send_pages h sql p s1) as [r s2] end.
  simpl in *. destruct H as (H1 & H2 & H3 & H4).
  repeat split; try assumption.
  refine (extends_trans tt _ _ _ _ _ H4).
  eapply extends_one; simpl; [reflexivity | reflexivity | discriminate].
Qed.

Lemma inner_now : inner (DB := DB) datetime_now.
Proof.
  intros s. simpl. repeat split. now apply extends_refl.
Qed.

Lemma inner_warning msg : inner (DB := DB) (logger_warning msg).
Proof.
  intros s. simpl. repeat split. now apply extends_refl.
Qed.

Lemma outer_with_connection {A} (body : handle -> M DB A) :
  (forall h, inner (DB := DB) (body h)) ->
  outer (DB := DB) (with_connection body).
Proof.
  intros Hb s. unfold with_connection.
  destruct (conn (self s)) as [h |].
  - specialize (Hb h s). destruct (body h s) as [[e | a] s1]; simpl in *;
      destruct Hb as (H1 & H2 & H3 & H4); repeat split; try assumption;
      try discriminate;
      eapply extends_snoc; solve [eassumption | reflexivity].
  - simpl. repeat split; auto. now apply extends_refl.
Qed.

(** A step that cannot raise and touches neither the transaction nor the
    calls, before a computation that may commit. *)
Lemma outer_after_now {A} (k : Z -> M DB A) :
  (forall t, outer (DB := DB) (k t)) -> outer (DB := DB) (bind datetime_now k).
Proof.
  intros Hk s. unfold bind, datetime_now.
  specialize (Hk (drv_now (clock_reads (world s))) (on_world read_clock s)).
  simpl in *. exact Hk.
Qed.

(** A computation that may commit, before a step that only returns. *)
Lemma outer_then_ret {A B} (m : M DB A) (f : A -> B) (k : A -> M DB B) :
  (forall a s, k a s = (inr (f a), s)) -> outer (DB := DB) m ->
  outer (DB := DB) (bind m k).
Proof.
  intros Hk Hm s. specialize (Hm s). unfold bind.
  destruct (m s) as [[e | a] s1]; simpl in *.
  - destruct Hm as (H1 & H2 & H3 & H4).
    split; [exact H1 |]. split; [exact H2 |]. split.
    + intros e' [= <-]. exact (H3 e eq_refl).
    + now apply (extends_raise (A := A)).
  - rewrite Hk. simpl. destruct Hm as (H1 & H2 & H3 & n & H4 & H5 & H6).
    split; [exact H1 |]. split; [exact H2 |]. split; [discriminate |].
    exists n. split; [exact H4 |]. split; [exact H5 |].
    intros c e Hin Hr. specialize (H6 c e Hin Hr). discriminate.
Qed.

Lemma outer_select_body q :
  outer (DB := DB) (with_connection (fun conn =>
    res <~ with_cursor conn (fun cursor =>
      r <~ cursor_execute cursor q ;;
      match r with
      | None => raise (TypeError "'NoneType' object is not iterable")
      | Some (description, fetched) =>
          let columns := map col_name description in
          let rows := fetched in
          ret (rows, columns)
      end) ;;
    let '(rows, columns) := res in
    let rows := map (fun row => row) rows in
    ret (rows, columns))).
Proof.
  apply outer_with_connection. intros h.
  apply inner_bind.
  - apply inner_with_cursor, inner_bind; [apply inner_cursor_execute |].
    intros [[d f] |]; [apply inner_ret | apply inner_raise].
  - intros [rows cols]. apply inner_ret.
Qed.

Lemma outer_execute_body q :
  outer (DB := DB) (with_connection (fun conn =>
    with_cursor conn (fun cursor =>
      _ <~ cursor_execute cursor q ;;
      ret tt))).
Proof.
  apply outer_with_connection. intros h.
  apply inner_with_cursor, inner_bind; [apply inner_cursor_execute |].
  intros _. apply inner_ret.
Qed.

Lemma outer_insert_body (df : DataFrame) (table_name table_schema : string) :
  outer (DB := DB) (let '(columns, rows) := _split_to_rows_columns df in
    start <~ datetime_now ;;
    with_connection (fun conn =>
      with_cursor conn (fun cursor =>
        let query :=
          "INSERT INTO " +:+ table_schema +:+ "." +:+ table_name
          +:+ " (" +:+ join ", " columns +:+ ") VALUES %s" in
        execute_values cursor query rows 50000 ;;;
        t1 <~ datetime_now ;;
        let duration := t1 - start in
        logger_warning
          (inserted_message table_name rows (timedelta_seconds duration)) ;;;
        t2 <~ datetime_now ;;
        let total_duration := t2 - start in
        logger_warning (finished_message (timedelta_seconds total_duration))))).
Proof.
  unfold _split_to_rows_columns. apply outer_after_now. intros start.
  apply outer_with_connection. intros h. apply inner_with_cursor.
  apply inner_bind; [apply inner_execute_values | intros _].
  apply inner_bind; [apply inner_now | intros t1].
  apply inner_bind; [apply inner_warning | intros _].
  apply inner_bind; [apply inner_now | intros t2].
  apply inner_warning.
Qed.

(** *** An operation is the check, then a body that never connects *)

Lemma after_check_body {A} (body : M DB A) :
  outer (DB := DB) body ->
  after_check (DB := DB) (_check_and_reconnect ;;; body).
Proof.
  intros Hb s. unfold bind.
  destruct (_check_and_reconnect s) as [[e | u] s1]; [reflexivity |].
  exact (Hb s1).
Qed.

Lemma after_check_ret {A B} (m : M DB A) (f : A -> B) (k : A -> M DB B) :
  (forall a s, k a s = (inr (f a), s)) -> after_check (DB := DB) m ->
  after_check (DB := DB) (bind m k).
Proof.
  intros Hk Hm s. specialize (Hm s). unfold bind.
  destruct (_check_and_reconnect s) as [[e | u] s1].
  - rewrite Hm. reflexivity.
  - destruct (m s) as [[e | a] s2]; simpl in *.
    + destruct Hm as (H1 & H2 & H3 & H4).
      split; [exact H1 |]. split; [exact H2 |]. split.
      * intros e' [= <-]. exact (H3 e eq_refl).
      * now apply (extends_raise (A := A)).
    + rewrite Hk. simpl. destruct Hm as (H1 & H2 & H3 & n & H4 & H5 & H6).
      split; [exact H1 |]. split; [exact H2 |]. split; [discriminate |].
      exists n. split; [exact H4 |]. split; [exact H5 |].
      intros c e Hin Hr. specialize (H6 c e Hin Hr). discriminate.
Qed.

Lemma select_with_columns_after_check q :
  after_check (DB := DB) (select_with_columns q).
Proof. apply after_check_body, outer_select_body. Qed.

Lemma select_after_check q : after_check (DB := DB) (select q).
Proof.
  unfold select. eapply (after_check_ret _ fst).
  - intros [rows cols] s. reflexivity.
  - apply select_with_columns_after_check.
Qed.

Lemma execute_after_check q : after_check (DB := DB) (execute q).
Proof. apply after_check_body, outer_execute_body. Qed.

Lemma insert_dataframe_after_check df t sch :
  after_check (DB := DB) (insert_dataframe df t sch).
Proof. apply after_check_body, outer_insert_body. Qed.

Lemma run_op_after_check o : after_check (DB := DB) (run_op o).
Proof.
  destruct o as [q | q | q | df t sch]; simpl.
  - eapply (after_check_ret _ RRows); [reflexivity | apply select_after_check].
  - eapply (after_check_ret _ (fun res => RRowsColumns (fst res) (snd res)));
      [reflexivity | apply select_with_columns_after_check].
  - eapply (after_check_ret _ (fun _ => RNone));
      [reflexivity | apply execute_after_check].
  - eapply (after_check_ret _ (fun _ => RNone));
      [reflexivity | apply insert_dataframe_after_check].
Qed.

(** What an operation does to the controller, the connection objects and
    the count of connect calls is what its check does. *)
Lemma run_op_as_check o s :
  self (snd (run_op o s)) = self (snd (_check_and_reconnect s))
  /\ handles (world (snd (run_op o s)))
     = handles (world (snd (_check_and_reconnect s)))
  /\ connect_attempts (world (snd (run_op o s)))
     = connect_attempts (world (snd (_check_and_reconnect s))).
Proof.
  pose proof (run_op_after_check o s) as H.
  destruct (_check_and_reconnect s) as [[e | u] s1]; simpl.
  - rewrite H. auto.
  - destruct H as (H1 & H2 & _ & n & H4 & H5 & _).
    split; [exact H1 |]. split; [exact H2 |].
    exact (connect_attempts_app _ _ n H4 H5).
Qed.

End Frames.

(** ** The reconnect state *)

Section Reconnect.

Context {DB : Type} `{drv : Driver DB}.

(** C1.  On a new controller (no connection, [is_reconnect] false,
    [reconnect_number] 0) a call of any of the four operations calls
    [psycopg2.connect] exactly once, whether or not it succeeds, sets
    [is_reconnect] and leaves [reconnect_number] at 0. *)
Theorem first_operation_connects_once
    (host : string + Z) (port : Z) (user password database : string)
    (w : World DB) (o : op) :
  let s' := snd (run_op o (mkSys (__init__ host port user password database) w)) in
  connect_attempts (world s') = S (connect_attempts w)
  /\ is_reconnect (self s') = true
  /\ reconnect_number (self s') = 0.
Proof.
  intros s'. subst s'.
  destruct (run_op_as_check o (mkSys (__init__ host port user password database) w))
    as (Hs & _ & Hc).
  rewrite Hs, Hc.
  destruct (check_cases (mkSys (__init__ host port user password database) w))
    as [Hopen | e _ _ | _ _].
  - discriminate Hopen.
  - simpl. rewrite connect_attempts_record. simpl. repeat split. lia.
  - simpl. unfold connect_attempts. simpl.
    rewrite List.filter_app, length_app. simpl. repeat split. lia.
Qed.


(** C6.  An operation calls connect at most once.  When that call raises,
    the operation raises the same error and the connect is the only driver
    call it made: no second attempt, no statement sent. *)
Theorem one_connect_attempt_and_no_retry (s : Sys DB) (o : op) :
  (connect_attempts (world (snd (run_op o s))) <= S (connect_attempts (world s)))%nat
  /\ forall e,
       _connection_is_closed s = true ->
       drv_connect (config (self s)) (world s) = Some e ->
       fst (run_op o s) = inl e
       /\ new_calls s (snd (run_op o s)) = [CConnect (config (self s)) (Some e)]
       /\ connect_attempts (world (snd (run_op o s)))
          = S (connect_attempts (world s)).
Proof.
  split.
  - destruct (run_op_as_check o s) as (_ & _ & Hc). rewrite Hc.
    destruct (check_cases s) as [_ | e _ _ | _ _]; simpl.
    + lia.
    + rewrite connect_attempts_record. simpl. lia.
    + unfold connect_attempts. simpl.
      rewrite List.filter_app, length_app. simpl. lia.
  - intros e Hclosed He.
    pose proof (run_op_after_check o s) as H.
    rewrite (check_closed_fails s e Hclosed He) in H. rewrite H. simpl.
    split; [reflexivity |]. split.
    + unfold new_calls. simpl. apply drop_app_length.
    + rewrite connect_attempts_record. simpl. lia.
Qed.

(** C8.  [select] returns the rows [select_with_columns] returns for the
    same statement in the same store, raises what it raises, and leaves the
    same store. *)
Theorem select_returns_rows_of_select_with_columns (query : string) (s : Sys DB) :
  select query s
  = (match fst (select_with_columns query s) with
     | inl e => inl e
     | inr (rows, _) => inr rows
     end,
     snd (select_with_columns query s)).
Proof.
  unfold select, bind.
  destruct (select_with_columns query s) as [[e | [rows cols]] s1]; reflexivity.
Qed.

End Reconnect.

(** ** Invariants of the reachable stores *)

Section Invariants.

Context {DB : Type} `{drv : Driver DB}.

Lemma closed_means_none_open (s : Sys DB) :
  one_open_handle s -> _connection_is_closed s = true ->
  forall h, ~ is_open (world s) h.
Proof.
  intros Hinv Hclosed h Hopen. pose proof (Hinv h Hopen) as Hconn.
  unfold _connection_is_closed in Hclosed. unfold is_open in Hopen.
  rewrite Hconn, Hopen in Hclosed. discriminate.
Qed.

Lemma one_open_handle_unique (s : Sys DB) :
  one_open_handle s ->
  forall h1 h2, is_open (world s) h1 -> is_open (world s) h2 -> h1 = h2.
Proof.
  intros Hinv h1 h2 H1 H2. pose proof (Hinv h1 H1). pose proof (Hinv h2 H2).
  congruence.
Qed.

Lemma one_open_handle_check (s : Sys DB) :
  one_open_handle s -> one_open_handle (snd (_check_and_reconnect s)).
Proof.
  intros Hinv. destruct (check_cases s) as [_ | e Hc _ | Hc _]; simpl.
  - exact Hinv.
  - intros h Hopen. exfalso. exact (closed_means_none_open s Hinv Hc h Hopen).
  - intros h Hopen. unfold is_open in Hopen. simpl in Hopen.
    apply lookup_app_Some in Hopen as [Hold | [Hge Hnew]].
    + exfalso. exact (closed_means_none_open s Hinv Hc h Hold).
    + destruct (h - length (handles (world s)))%nat as [| k] eqn:Hk;
        [| destruct k; discriminate].
      simpl. unfold handle in *. f_equal. lia.
Qed.

Lemma one_open_handle_op (s : Sys DB) (o : op) :
  one_open_handle s -> one_open_handle (snd (run_op o s)).
Proof.
  intros Hinv h Hopen. destruct (run_op_as_check o s) as (Hs & Hh & _).
  unfold is_open in Hopen. rewrite Hh in Hopen. rewrite Hs.
  exact (one_open_handle_check s Hinv h Hopen).
Qed.

Lemma one_open_handle_step (s s' : Sys DB) :
  step s s' -> one_open_handle s -> one_open_handle s'.
Proof.
  intros Hstep Hinv. destruct Hstep as [o s | h c s Hc Hlt | s].
  - now apply one_open_handle_op.
  - intros h' Hopen. unfold is_open in Hopen. simpl in Hopen.
    destruct (decide (h = h')) as [<- | Hne].
    + rewrite list_lookup_insert_eq in Hopen by exact Hlt. congruence.
    + rewrite list_lookup_insert_ne in Hopen by exact Hne. exact (Hinv h' Hopen).
  - unfold __del__. destruct (_connection_is_closed s) eqn:Hclosed; simpl;
      [exact Hinv |].
    destruct (conn (self s)) as [h |] eqn:Hconn; [| exact Hinv].
    intros h' Hopen. unfold is_open in Hopen. simpl in Hopen.
    destruct (decide (h = h')) as [<- | Hne].
    + destruct (handles (world s) !! h) as [c |] eqn:Hl.
      * apply lookup_lt_Some in Hl.
        rewrite list_lookup_insert_eq in Hopen by exact Hl. discriminate.
      * rewrite list_insert_ge in Hopen by (apply lookup_ge_None; exact Hl).
        congruence.
    + rewrite list_lookup_insert_ne in Hopen by exact Hne.
      simpl. exact (Hinv h' Hopen).
Qed.

Lemma one_open_handle_reachable c0 d0 (s : Sys DB) :
  reachable c0 d0 s -> one_open_handle s.
Proof.
  induction 1 as [| s s' _ IH Hstep].
  - intros h Hopen. discriminate Hopen.
  - exact (one_open_handle_step s s' Hstep IH).
Qed.

(** An operation creates a connection object only from a store in which
    the check found none open. *)
Lemma new_handle_only_when_closed (s : Sys DB) (o : op) :
  handles (world (snd (run_op o s))) = handles (world s)
  \/ (_connection_is_closed s = true
      /\ handles (world (snd (run_op o s))) = handles (world s) ++ [0]).
Proof.
  destruct (run_op_as_check o s) as (_ & Hh & _). rewrite Hh.
  destruct (check_cases s) as [_ | e _ _ | Hc _]; simpl; auto.
Qed.

(** C7.  In every store reachable from a new controller at most one
    connection object is open and it is the one in [self.conn]; every
    operation keeps it so, and creates a connection object only when
    [self.conn] was None or closed, no connection object being open then. *)
Theorem at_most_one_open_connection
    (host : string + Z) (port : Z) (user password database : string)
    (d0 : DB) (s : Sys DB) :
  reachable (__init__ host port user password database) d0 s ->
  (forall h1 h2, is_open (world s) h1 -> is_open (world s) h2 -> h1 = h2)
  /\ (forall h, is_open (world s) h -> conn (self s) = Some h)
  /\ forall o,
       let s' := snd (run_op o s) in
       (forall h1 h2, is_open (world s') h1 -> is_open (world s') h2 -> h1 = h2)
       /\ (forall h, is_open (world s') h -> conn (self s') = Some h)
       /\ (handles (world s') = handles (world s)
           \/ (_connection_is_closed s = true
               /\ (forall h, ~ is_open (world s) h)
               /\ handles (world s') = handles (world s) ++ [0])).
Proof.
  intros Hreach. pose proof (one_open_handle_reachable _ _ _ Hreach) as Hinv.
  split; [exact (one_open_handle_unique s Hinv) |].
  split; [exact Hinv |].
  intros o s'. subst s'.
  pose proof (one_open_handle_op s o Hinv) as Hinv'.
  split; [exact (one_open_handle_unique _ Hinv') |].
  split; [exact Hinv' |].
  destruct (new_handle_only_when_closed s o) as [Hsame | [Hc Hnew]];
    [left; exact Hsame | right].
  split; [exact Hc |]. split; [exact (closed_means_none_open s Hinv Hc) | exact Hnew].
Qed.

Lemma counts_attempts_check (s : Sys DB) :
  counts_attempts s -> counts_attempts (snd (_check_and_reconnect s)).
Proof.
  intros [Hf Ht].
  assert (Hcounted :
    forall w' : World DB,
      connect_attempts w' = S (connect_attempts (world s)) ->
               counts_attempts (mkSys (counted (self s)) w')).
  { intros w' Hw. unfold counts_attempts, counted. simpl.
    destruct (is_reconnect (self s)) eqn:Hr; simpl; rewrite Hw.
    - destruct (Ht eq_refl) as [H1 H2]. split; [discriminate |].
      intros _. split; lia.
    - destruct (Hf eq_refl) as [H1 H2]. split; [discriminate |].
      intros _. split; lia. }
  destruct (check_cases s) as [_ | e _ _ | _ _]; simpl.
  - split; assumption.
  - apply Hcounted. rewrite connect_attempts_record. simpl. lia.
  - specialize (Hcounted
      (set_handles (handles (world s) ++ [0])
         (record_call (CConnect (config (self s)) None) (world s)))).
    unfold counts_attempts in *. simpl in *. apply Hcounted.
    unfold connect_attempts. simpl.
    rewrite List.filter_app, length_app. simpl. lia.
Qed.

Lemma counts_attempts_step (s s' : Sys DB) :
  step s s' -> counts_attempts s -> counts_attempts s'.
Proof.
  intros Hstep Hinv. destruct Hstep as [o s | h c s Hc Hlt | s].
  - destruct (run_op_as_check o s) as (Hs & _ & Hn).
    pose proof (counts_attempts_check s Hinv) as H.
    unfold counts_attempts in *. rewrite Hs, Hn. exact H.
  - exact Hinv.
  - unfold __del__. destruct (_connection_is_closed s); simpl; [exact Hinv |].
    destruct (conn (self s)) as [h |]; [| exact Hinv].
    unfold counts_attempts in *. simpl.
    replace (connect_attempts (close h (world s))) with (connect_attempts (world s));
      [exact Hinv |].
    unfold close. rewrite connect_attempts_record. simpl. unfold connect_attempts.
    simpl. lia.
Qed.

(** C10, as the code has it.  In every store reachable from a new
    controller [reconnect_number] is 0 while [is_reconnect] is false, and no
    connect call has been made then; once [is_reconnect] is set at least one
    connect call has been made, and [reconnect_number] is the number of
    connect calls after the first, the calls that raised included. *)
Theorem reconnect_number_counts_connect_calls
    (host : string + Z) (port : Z) (user password database : string)
    (d0 : DB) (s : Sys DB) :
  reachable (__init__ host port user password database) d0 s ->
  (is_reconnect (self s) = false ->
     reconnect_number (self s) = 0 /\ connect_attempts (world s) = 0%nat)
  /\ (is_reconnect (self s) = true ->
     (1 <= connect_attempts (world s))%nat
     /\ reconnect_number (self s) = Z.of_nat (connect_attempts (world s)) - 1)
  /\ (reconnect_number (self s) <> 0 -> (2 <= connect_attempts (world s))%nat).
Proof.
  intros Hreach.
  assert (Hinv : counts_attempts s).
  { induction Hreach as [| s s' _ IH Hstep].
    - split; simpl; [auto | discriminate].
    - exact (counts_attempts_step s s' Hstep IH). }
  destruct Hinv as [Hf Ht]. split; [exact Hf |]. split; [exact Ht |].
  intros Hnz. destruct (is_reconnect (self s)).
  - destruct (Ht eq_refl). lia.
  - destruct (Hf eq_refl). contradiction.
Qed.

End Invariants.

(** ** Errors, the INSERT statement and the log *)

Section Operations.

Context {DB : Type} `{drv : Driver DB}.



(** After a check that did not raise, [self.conn] names a connection. *)
Lemma check_leaves_connection (s s1 : Sys DB) :
  _check_and_reconnect s = (inr tt, s1) -> exists h, conn (self s1) = Some h.
Proof.
  intros H. destruct (check_cases s) as [Hopen | e _ _ | _ _].
  - injection H as <-. unfold _connection_is_closed in Hopen.
    destruct (conn (self s)) as [h |]; [eauto | discriminate].
  - discriminate.
  - injection H as <-. simpl. eauto.
Qed.





End Operations.

(** ** [cast_dict_to_json] *)

Section Texts.

Lemma append_cons (x : ascii) (a b : string) :
  String x a +:+ b = String x (a +:+ b).
Proof. reflexivity. Qed.





Lemma all_ws_app (a b : string) :
  JsonGrammar.all_ws a = true -> JsonGrammar.all_ws b = true ->
  JsonGrammar.all_ws (a +:+ b) = true.
Proof.
  induction a as [| x a IH]; [auto |].
  rewrite append_cons. simpl.
  intros Ha Hb. apply andb_true_iff in Ha as [Hx Ha].
  rewrite Hx. simpl. now apply IH.
Qed.

(** *** Decimal integers *)

Lemma to_uint_nonzero_head (p : positive) : nonzero_head (Pos.to_uint p).
Proof.
  pose proof (DecimalPos.Unsigned.to_of (Pos.to_uint p)) as Hn.
  rewrite DecimalPos.Unsigned.of_to in Hn. simpl in Hn.
  pose proof (DecimalPos.Unsigned.to_uint_nonzero p) as Hz.
  pose proof (DecimalPos.Unsigned.to_uint_nonnil p) as Hnil.
  pose proof (nzhead_nonzero (Pos.to_uint p)) as Hh.
  unfold unorm in Hn.
  destruct (nzhead (Pos.to_uint p)) eqn:Hnz;
    try (rewrite Hn; exact I); try (rewrite Hn in Hz; now elim Hz).
  exfalso. now apply (Hh u).
Qed.




Lemma string_of_uint_nonzero_head (u : uint) :
  nonzero_head u -> NilZero.string_of_uint u = NilEmpty.string_of_uint u.
Proof.
  destruct u; simpl; try contradiction; reflexivity.
Qed.



(** *** Characters *)












(** *** The encoder's loops *)





(** *** Joined items are the elements and members of the grammar *)






(** *** Every serialisable value is encoded as a JSON value *)









(** *** Texts that are not JSON *)




End Texts.

(** ** Pages *)

Section Pages.

Context {A : Type}.

(** The pages, one after the other, are the page being filled followed by
    the items still to come. *)
Lemma paginate_concat (size : nat) (seq page : list A) (room : nat) :
  concat (paginate size seq page room) = rev page ++ seq.
Proof.
  revert page room. induction seq as [| x rest IH]; intros page room; simpl.
  - destruct page as [| y page]; simpl; [reflexivity |].
    rewrite rev_append_rev, !app_nil_r. reflexivity.
  - destruct room as [| [| r]]; simpl.
    + rewrite IH, rev_append_rev. simpl. rewrite <- app_assoc. reflexivity.
    + rewrite IH, rev_append_rev. simpl. rewrite <- app_assoc. reflexivity.
    + rewrite IH. simpl. rewrite <- app_assoc. reflexivity.
Qed.

Lemma paginate_sizes (size : nat) (seq page : list A) (room : nat) :
  (1 <= room)%nat -> (length page + room = size)%nat ->
  Forall (fun p => (1 <= length p <= size)%nat) (paginate size seq page room).
Proof.
  revert page room. induction seq as [| x rest IH]; intros page room Hr Hs;
    simpl.
  - destruct page as [| y page]; constructor; [| constructor].
    rewrite rev_append_rev, app_nil_r, length_rev. simpl in *. lia.
  - destruct room as [| [| r]]; [lia | |].
    + constructor.
      * rewrite rev_append_rev, length_app, length_rev. simpl in *. lia.
      * apply IH; simpl in *; lia.
    + apply IH; simpl in *; lia.
Qed.

Lemma paginate_count (size : nat) (seq page : list A) (room : nat) :
  (1 <= room)%nat -> (length page + room = size)%nat ->
  length (paginate size seq page room)
  = ((length page + length seq + size - 1) / size)%nat.
Proof.
  revert page room. induction seq as [| x rest IH]; intros page room Hr Hs;
    simpl.
  - destruct page as [| y page]; simpl in *.
    + symmetry. apply Nat.div_small. lia.
    + apply (Nat.div_unique _ _ 1%nat (length page)); lia.
  - destruct room as [| [| r]]; [lia | |].
    + simpl. rewrite IH by (simpl; lia). simpl.
      replace (length page + S (length rest) + size - 1)%nat
        with (1 * size + (length rest + size - 1))%nat by lia.
      rewrite Nat.div_add_l by lia. reflexivity.
    + rewrite IH by (simpl; lia). simpl. f_equal. lia.
Qed.

End Pages.

(** ** What each operation does after its check *)

Section Bodies.

Context {DB : Type} `{drv : Driver DB}.

(** The check touches the controller, the connection objects and the calls
    only. *)
Lemma check_keeps_store (s : Sys DB) :
  db (world (snd (_check_and_reconnect s))) = db (world s)
  /\ txn (world (snd (_check_and_reconnect s))) = txn (world s)
  /\ cursors (world (snd (_check_and_reconnect s))) = cursors (world s)
  /\ log (world (snd (_check_and_reconnect s))) = log (world s)
  /\ clock_reads (world (snd (_check_and_reconnect s))) = clock_reads (world s)
  /\ config (self (snd (_check_and_reconnect s))) = config (self s).
Proof.
  destruct (check_cases s) as [_ | e _ _ | _ _]; simpl; repeat split;
    unfold counted; destruct (is_reconnect (self s)); reflexivity.
Qed.

(** After a check that did not raise, [self.conn] is an open connection. *)
Lemma check_leaves_open (s s1 : Sys DB) :
  _check_and_reconnect s = (inr tt, s1) -> _connection_is_closed s1 = false.
Proof.
  intros H. destruct (check_cases s) as [Hopen | e _ _ | _ _].
  - injection H as <-. exact Hopen.
  - discriminate.
  - injection H as <-. unfold _connection_is_closed. simpl.
    rewrite lookup_app_r by lia. rewrite Nat.sub_diag. reflexivity.
Qed.

(** The check sends no page. *)
Lemma check_sends_no_page (s : Sys DB) :
  exists new,
    calls (world (snd (_check_and_reconnect s))) = calls (world s) ++ new
    /\ List.filter is_round_trip new = [].
Proof.
  destruct (check_cases s) as [_ | e _ _ | _ _]; simpl.
  - exists []. rewrite app_nil_r. split; reflexivity.
  - eexists. split; reflexivity.
  - eexists. split; reflexivity.
Qed.

(** [select_with_columns] after its check, by what the driver makes of the
    statement. *)
Lemma select_with_columns_run (q : string) (s s1 : Sys DB) (h : handle) :
  _check_and_reconnect s = (inr tt, s1) -> conn (self s1) = Some h ->
  self (snd (select_with_columns q s)) = self s1
  /\ handles (world (snd (select_with_columns q s))) = handles (world s1)
  /\ cursors (world (snd (select_with_columns q s))) = cursors (world s1)
  /\ log (world (snd (select_with_columns q s))) = log (world s1)
  /\ txn (world (snd (select_with_columns q s))) = None
  /\ match drv_execute q (current_db (world s1)) with
     | inl e =>
         fst (select_with_columns q s) = inl e
         /\ db (world (snd (select_with_columns q s))) = db (world s1)
         /\ calls (world (snd (select_with_columns q s)))
            = calls (world s1) ++ [CExecute h q (Some e); CRollback h]
     | inr (d, None) =>
         fst (select_with_columns q s)
         = inl (TypeError "'NoneType' object is not iterable")
         /\ db (world (snd (select_with_columns q s))) = db (world s1)
         /\ calls (world (snd (select_with_columns q s)))
            = calls (world s1) ++ [CExecute h q None; CRollback h]
     | inr (d, Some (description, rows)) =>
         fst (select_with_columns q s) = inr (rows, map col_name description)
         /\ db (world (snd (select_with_columns q s))) = d
         /\ calls (world (snd (select_with_columns q s)))
            = calls (world s1) ++ [CExecute h q None; CCommit h]
     end.
Proof.
  intros Hcheck Hconn.
  unfold select_with_columns, bind. rewrite Hcheck.
  unfold with_connection. rewrite Hconn.
  unfold with_cursor, bind, cursor_execute, current_db. simpl.
  destruct (drv_execute q _) as [e | [d [[desc rows] |]]];
    simpl; rewrite <- ?app_assoc, ?List.map_id; repeat split.
Qed.

(** [execute] after its check. *)
Lemma execute_run (q : string) (s s1 : Sys DB) (h : handle) :
  _check_and_reconnect s = (inr tt, s1) -> conn (self s1) = Some h ->
  self (snd (execute q s)) = self s1
  /\ handles (world (snd (execute q s))) = handles (world s1)
  /\ cursors (world (snd (execute q s))) = cursors (world s1)
  /\ log (world (snd (execute q s))) = log (world s1)
  /\ txn (world (snd (execute q s))) = None
  /\ match drv_execute q (current_db (world s1)) with
     | inl e =>
         fst (execute q s) = inl e
         /\ db (world (snd (execute q s))) = db (world s1)
         /\ calls (world (snd (execute q s)))
            = calls (world s1) ++ [CExecute h q (Some e); CRollback h]
     | inr (d, _) =>
         fst (execute q s) = inr tt
         /\ db (world (snd (execute q s))) = d
         /\ calls (world (snd (execute q s)))
            = calls (world s1) ++ [CExecute h q None; CCommit h]
     end.
Proof.
  intros Hcheck Hconn.
  unfold execute, bind. rewrite Hcheck.
  unfold with_connection. rewrite Hconn.
  unfold with_cursor, bind, cursor_execute, current_db. simpl.
  destruct (drv_execute q _) as [e | [d r]];
    simpl; rewrite <- ?app_assoc; repeat split.
Qed.

Lemma current_db_set_txn (d : DB) (w : World DB) :
  current_db (set_txn (Some d) w) = d.
Proof. reflexivity. Qed.

(** The page loop, by what the pages make of the database. *)
Lemma send_pages_run h sql pages (s : Sys DB) :
  self (snd (send_pages h sql pages s)) = self s
  /\ handles (world (snd (send_pages h sql pages s))) = handles (world s)
  /\ cursors (world (snd (send_pages h sql pages s))) = cursors (world s)
  /\ db (world (snd (send_pages h sql pages s))) = db (world s)
  /\ log (world (snd (send_pages h sql pages s))) = log (world s)
  /\ clock_reads (world (snd (send_pages h sql pages s))) = clock_reads (world s)
  /\ match run_pages sql pages (current_db (world s)) with
     | inr d =>
         fst (send_pages h sql pages s) = inr tt
         /\ current_db (world (snd (send_pages h sql pages s))) = d
         /\ calls (world (snd (send_pages h sql pages s)))
            = calls (world s)
              ++ map (fun page => CRoundTrip h sql page None) pages
     | inl e =>
         fst (send_pages h sql pages s) = inl e
         /\ exists sent refused,
              calls (world (snd (send_pages h sql pages s)))
              = calls (world s)
                ++ map (fun page => CRoundTrip h sql page None) sent
                ++ [CRoundTrip h sql refused (Some e)]
              /\ exists rest, pages = sent ++ refused :: rest
     end.
Proof.
  revert s. induction pages as [| page rest IH]; intros s; simpl.
  - rewrite app_nil_r. repeat split.
  - destruct (drv_execute_page sql page (current_db (world s))) as [e | d]
      eqn:Hpage; simpl.
    + repeat split. exists [], page. simpl. split; [reflexivity |].
      exists rest. reflexivity.
    + match goal with |- context [send_pages h sql rest ?s1] =>
        specialize (IH s1); simpl in IH;
        destruct IH as (H1 & H2 & H3 & H4 & H5 & H6 & H7) end.
      rewrite current_db_set_txn in H7.
      repeat split; try assumption.
      destruct (run_pages sql rest d) as [e | d'].
      * destruct H7 as (Hr & sent & refused & Hc & tail & Hp).
        split; [exact Hr |]. exists (page :: sent), refused. split.
        -- rewrite Hc. simpl. rewrite <- app_assoc. reflexivity.
        -- exists tail. rewrite Hp. reflexivity.
      * destruct H7 as (Hr & Hd & Hc). split; [exact Hr |].
        split; [exact Hd |]. rewrite Hc, <- app_assoc. reflexivity.
Qed.

(** [insert_dataframe] after its check. *)
Lemma insert_dataframe_run (df : DataFrame) (t : string) (sch : option string)
    (s s1 : Sys DB) (h : handle) :
  _check_and_reconnect s = (inr tt, s1) -> conn (self s1) = Some h ->
  self (snd (insert_dataframe df t sch s)) = self s1
  /\ handles (world (snd (insert_dataframe df t sch s))) = handles (world s1)
  /\ cursors (world (snd (insert_dataframe df t sch s))) = cursors (world s1)
  /\ txn (world (snd (insert_dataframe df t sch s))) = None
  /\ match run_pages (insert_statement df t sch) (pages_of df)
             (current_db (world s1)) with
     | inr d =>
         fst (insert_dataframe df t sch s) = inr tt
         /\ db (world (snd (insert_dataframe df t sch s))) = d
         /\ calls (world (snd (insert_dataframe df t sch s)))
            = calls (world s1)
              ++ CExecuteValues h (insert_statement df t sch) (values df) 50000
                 :: map (fun page =>
                           CRoundTrip h (insert_statement df t sch) page None)
                        (pages_of df)
              ++ [CCommit h]
         /\ log (world (snd (insert_dataframe df t sch s)))
            = log (world s1)
              ++ [inserted_message t (values df)
                    (timedelta_seconds
                       (drv_now (S (clock_reads (world s1)))
                        - drv_now (clock_reads (world s1))));
                  finished_message
                    (timedelta_seconds
                       (drv_now (S (S (clock_reads (world s1))))
                        - drv_now (clock_reads (world s1))))]
     | inl e =>
         fst (insert_dataframe df t sch s) = inl e
         /\ db (world (snd (insert_dataframe df t sch s))) = db (world s1)
         /\ log (world (snd (insert_dataframe df t sch s))) = log (world s1)
         /\ exists sent,
              calls (world (snd (insert_dataframe df t sch s)))
              = calls (world s1) ++ sent ++ [CRollback h]
     end.
Proof.
  intros Hcheck Hconn.
  unfold insert_dataframe, bind. rewrite Hcheck.
  unfold _split_to_rows_columns. rewrite List.map_id.
  unfold datetime_now, with_connection. simpl. rewrite Hconn.
  unfold with_cursor, bind, execute_values.
  change (paginate (Z.to_nat 50000) (values df) [] (Z.to_nat 50000))
    with (pages_of df).
  change ("INSERT INTO " +:+ default "public" sch +:+ "." +:+ t +:+ " ("
          +:+ join ", " (columns df) +:+ ") VALUES %s")
    with (insert_statement df t sch).
  match goal with |- context [send_pages h ?q ?p ?s3] =>
    destruct (send_pages_run h q p s3) as (H1 & H2 & H3 & H4 & H5 & H6 & H7);
    simpl in H1, H2, H3, H4, H5, H6, H7;
    destruct (send_pages h q p s3) as [[e | u] s4] end;
    change (current_db (record_call _ (set_cursors _ (read_clock (world s1)))))
      with (current_db (world s1)) in H7;
    destruct (run_pages (insert_statement df t sch) (pages_of df)
                (current_db (world s1))) as [e' | d];
    simpl in *.
  - destruct H7 as ([= <-] & sent & refused & Hc & _).
    split; [exact H1 |]. split; [exact H2 |].
    split; [rewrite H3; reflexivity |]. split; [reflexivity |].
    split; [reflexivity |]. split; [exact H4 |]. split; [exact H5 |].
    exists (CExecuteValues h (insert_statement df t sch) (values df) 50000
            :: map (fun page =>
                      CRoundTrip h (insert_statement df t sch) page None) sent
            ++ [CRoundTrip h (insert_statement df t sch) refused (Some e)]).
    rewrite Hc. simpl. rewrite <- !app_assoc. reflexivity.
  - destruct H7 as (Hr & _). discriminate.
  - destruct H7 as (Hr & _). discriminate.
  - destruct H7 as (_ & Hd & Hc).
    split; [exact H1 |]. split; [exact H2 |].
    split; [rewrite H3; reflexivity |]. split; [reflexivity |].
    split; [reflexivity |]. split; [exact Hd |]. split.
    + rewrite Hc, <- !app_assoc. reflexivity.
    + rewrite H5, H6, <- app_assoc. reflexivity.
Qed.

End Bodies.

(** ** Consequences for a user of the controller *)

Section Uses.

Context {DB : Type} `{drv : Driver DB}.

(** The store an operation leaves is the store the method it calls leaves. *)
Lemma run_op_store (o : op) (s : Sys DB) :
  snd (run_op o s)
  = match o with
    | OpSelect q | OpSelectWithColumns q => snd (select_with_columns q s)
    | OpExecute q => snd (execute q s)
    | OpInsertDataframe df t sch => snd (insert_dataframe df t sch s)
    end.
Proof.
  destruct o as [q | q | q | df t sch]; unfold run_op, select, bind.
  - destruct (select_with_columns q s) as [[e | [rows cols]] s1]; reflexivity.
  - destruct (select_with_columns q s) as [[e | [rows cols]] s1]; reflexivity.
  - destruct (execute q s) as [[e | u] s1]; reflexivity.
  - destruct (insert_dataframe df t sch s) as [[e | u] s1]; reflexivity.
Qed.

(** Whether an operation raises is whether the method it calls raises. *)
Lemma run_op_raises (o : op) (s : Sys DB) :
  match fst (run_op o s) with inl _ => true | inr _ => false end
  = match o with
    | OpSelect q | OpSelectWithColumns q =>
        match fst (select_with_columns q s) with inl _ => true | inr _ => false end
    | OpExecute q =>
        match fst (execute q s) with inl _ => true | inr _ => false end
    | OpInsertDataframe df t sch =>
        match fst (insert_dataframe df t sch s) with
        | inl _ => true
        | inr _ => false
        end
    end.
Proof.
  destruct o as [q | q | q | df t sch]; unfold run_op, select, bind.
  - destruct (select_with_columns q s) as [[e | [rows cols]] s1]; reflexivity.
  - destruct (select_with_columns q s) as [[e | [rows cols]] s1]; reflexivity.
  - destruct (execute q s) as [[e | u] s1]; reflexivity.
  - destruct (insert_dataframe df t sch s) as [[e | u] s1]; reflexivity.
Qed.

(** An operation whose check raised did nothing else. *)
Lemma run_op_check_raised (o : op) (s s1 : Sys DB) (e : exn) :
  _check_and_reconnect s = (inl e, s1) -> run_op o s = (inl e, s1).
Proof.
  intros H. pose proof (run_op_after_check o s) as Ha. rewrite H in Ha.
  exact Ha.
Qed.

(** An operation that returned had a check that returned. *)
Lemma run_op_returned (o : op) (s : Sys DB) (r : result) :
  fst (run_op o s) = inr r ->
  exists s1 h, _check_and_reconnect s = (inr tt, s1) /\ conn (self s1) = Some h.
Proof.
  intros H. destruct (_check_and_reconnect s) as [[e | []] s1] eqn:Hc.
  - rewrite (run_op_check_raised o s s1 e Hc) in H. discriminate.
  - destruct (check_leaves_connection s s1 Hc) as [h Hh]. eauto.
Qed.

(** After a check that returned: the cursor is closed, no transaction is
    open, the last driver call is the commit when the operation returned and
    the rollback when it raised, and the log is as it was unless the
    operation is an [insert_dataframe] that returned. *)
Lemma run_op_passed (o : op) (s s1 : Sys DB) (h : handle) :
  _check_and_reconnect s = (inr tt, s1) -> conn (self s1) = Some h ->
  cursors (world (snd (run_op o s))) = cursors (world s1)
  /\ txn (world (snd (run_op o s))) = None
  /\ last (calls (world (snd (run_op o s))))
     = Some (if match fst (run_op o s) with inl _ => true | inr _ => false end
             then CRollback h else CCommit h)
  /\ (log (world (snd (run_op o s))) = log (world s1)
      \/ (exists df t sch,
            o = OpInsertDataframe df t sch
            /\ fst (run_op o s) = inr RNone
            /\ length (log (world (snd (run_op o s))))
               = S (S (length (log (world s1)))))).
Proof.
  intros Hc Hh. rewrite run_op_store, run_op_raises.
  destruct o as [q | q | q | df t sch].
  - destruct (select_with_columns_run q s s1 h Hc Hh)
      as (_ & _ & H3 & H4 & H5 & H6).
    split; [exact H3 |]. split; [exact H5 |]. split; [| left; exact H4].
    destruct (drv_execute q (current_db (world s1))) as [e | [d [[ds rows] |]]];
      destruct H6 as (-> & _ & ->); rewrite last_app; reflexivity.
  - destruct (select_with_columns_run q s s1 h Hc Hh)
      as (_ & _ & H3 & H4 & H5 & H6).
    split; [exact H3 |]. split; [exact H5 |]. split; [| left; exact H4].
    destruct (drv_execute q (current_db (world s1))) as [e | [d [[ds rows] |]]];
      destruct H6 as (-> & _ & ->); rewrite last_app; reflexivity.
  - destruct (execute_run q s s1 h Hc Hh) as (_ & _ & H3 & H4 & H5 & H6).
    split; [exact H3 |]. split; [exact H5 |]. split; [| left; exact H4].
    destruct (drv_execute q (current_db (world s1))) as [e | [d r]];
      destruct H6 as (-> & _ & ->); rewrite last_app; reflexivity.
  - destruct (insert_dataframe_run df t sch s s1 h Hc Hh)
      as (_ & _ & H3 & H5 & H6).
    split; [exact H3 |]. split; [exact H5 |].
    destruct (run_pages (insert_statement df t sch) (pages_of df)
                (current_db (world s1))) as [e | d].
    + destruct H6 as (Hr & _ & Hl & sent & Hcalls). rewrite Hr, Hcalls.
      split; [| left; exact Hl].
      rewrite app_assoc, last_app. reflexivity.
    + destruct H6 as (Hr & _ & Hcalls & Hl). rewrite Hr, Hcalls. split.
      * change (CExecuteValues h (insert_statement df t sch) (values df) 50000
                :: map (fun page =>
                          CRoundTrip h (insert_statement df t sch) page None)
                       (pages_of df) ++ [CCommit h])
          with ((CExecuteValues h (insert_statement df t sch) (values df) 50000
                 :: map (fun page =>
                           CRoundTrip h (insert_statement df t sch) page None)
                        (pages_of df)) ++ [CCommit h]).
        rewrite app_assoc, last_app. reflexivity.
      * right. exists df, t, sch. split; [reflexivity |].
        split.
        -- unfold run_op, bind.
           destruct (insert_dataframe df t sch s) as [[e | u] s2];
             [discriminate | reflexivity].
        -- rewrite Hl, length_app. simpl. lia.
Qed.

(** X1.  [__del__] leaves the connection closed and the controller's
    fields as they were, does nothing when the connection is already closed
    or absent, and can be run again without effect; on a store reachable from
    a new controller no connection object is open after it. *)
Theorem del_closes_the_connection
    (host : string + Z) (port : Z) (user password database : string)
    (d0 : DB) (s : Sys DB) :
  reachable (__init__ host port user password database) d0 s ->
  _connection_is_closed (__del__ s) = true
  /\ (forall h, ~ is_open (world (__del__ s)) h)
  /\ self (__del__ s) = self s
  /\ db (world (__del__ s)) = db (world s)
  /\ (_connection_is_closed s = true -> __del__ s = s)
  /\ __del__ (__del__ s) = __del__ s.
Proof.
  intros Hreach.
  assert (Hclosed : _connection_is_closed (__del__ s) = true).
  { unfold __del__. destruct (_connection_is_closed s) eqn:Hc; simpl;
      [exact Hc |].
    unfold _connection_is_closed in *.
    destruct (conn (self s)) as [h |] eqn:Hh; [| discriminate].
    simpl. rewrite Hh.
    destruct (handles (world s) !! h) as [c |] eqn:Hl; [| discriminate].
    rewrite list_lookup_insert_eq by (apply lookup_lt_Some in Hl; exact Hl).
    reflexivity. }
  assert (Hinv : one_open_handle (__del__ s)).
  { apply (one_open_handle_reachable (__init__ host port user password database) d0).
    exact (reach_step _ _ _ _ Hreach (step_del s)). }
  split; [exact Hclosed |].
  split; [exact (closed_means_none_open _ Hinv Hclosed) |].
  split.
  { unfold __del__. destruct (negb (_connection_is_closed s)); [| reflexivity].
    destruct (conn (self s)); reflexivity. }
  split.
  { unfold __del__. destruct (negb (_connection_is_closed s)); [| reflexivity].
    destruct (conn (self s)); reflexivity. }
  split.
  { intros Hc. unfold __del__. rewrite Hc. reflexivity. }
  unfold __del__ at 1. rewrite Hclosed. reflexivity.
Qed.




(** X5.  After an operation that returned, the connection is open, so the
    next operation makes no connect call and leaves [conn],
    [reconnect_number] and the connection objects as they are. *)
Theorem next_operation_reuses_the_connection
    (o1 o2 : op) (s : Sys DB) (r : result) :
  fst (run_op o1 s) = inr r ->
  _connection_is_closed (snd (run_op o1 s)) = false
  /\ connect_attempts (world (snd (run_op o2 (snd (run_op o1 s)))))
     = connect_attempts (world (snd (run_op o1 s)))
  /\ conn (self (snd (run_op o2 (snd (run_op o1 s)))))
     = conn (self (snd (run_op o1 s)))
  /\ reconnect_number (self (snd (run_op o2 (snd (run_op o1 s)))))
     = reconnect_number (self (snd (run_op o1 s)))
  /\ handles (world (snd (run_op o2 (snd (run_op o1 s)))))
     = handles (world (snd (run_op o1 s))).
Proof.
  intros Hr. destruct (run_op_returned o1 s r Hr) as (s1 & h & Hc & Hh).
  assert (Hopen : _connection_is_closed (snd (run_op o1 s)) = false).
  { destruct (run_op_as_check o1 s) as (Hs & Hhs & _). rewrite Hc in Hs, Hhs.
    simpl in Hs, Hhs. pose proof (check_leaves_open s s1 Hc) as Ho.
    unfold _connection_is_closed in *. rewrite Hs, Hhs. exact Ho. }
  split; [exact Hopen |].
  destruct (run_op_as_check o2 (snd (run_op o1 s))) as (Hs & Hhs & Hn).
  rewrite (check_open _ Hopen) in Hs, Hhs, Hn. simpl in Hs, Hhs, Hn.
  rewrite Hs, Hhs, Hn. repeat split.
Qed.

(** Every operation closes its cursor, and leaves no transaction open
    unless one was open and its check raised. *)
Lemma run_op_releases (o : op) (s : Sys DB) :
  cursors (world (snd (run_op o s))) = cursors (world s)
  /\ (txn (world s) = None -> txn (world (snd (run_op o s))) = None).
Proof.
  destruct (check_keeps_store s) as (_ & Ht & Hcu & _).
  destruct (_check_and_reconnect s) as [[e | []] s1] eqn:Hc; simpl in *.
  - rewrite (run_op_check_raised o s s1 e Hc). simpl. rewrite Ht. auto.
  - destruct (check_leaves_connection s s1 Hc) as [h Hh].
    destruct (run_op_passed o s s1 h Hc Hh) as (H1 & H2 & _).
    rewrite H1, H2. auto.
Qed.

(** X6.  In every store reachable from a new controller no cursor and no
    transaction is open: each operation closes its cursor and ends its
    transaction on every way out. *)
Theorem no_cursor_or_transaction_left_open
    (host : string + Z) (port : Z) (user password database : string)
    (d0 : DB) (s : Sys DB) :
  reachable (__init__ host port user password database) d0 s ->
  cursors (world s) = 0%nat /\ txn (world s) = None.
Proof.
  induction 1 as [| s s' _ [IHc IHt] Hstep]; [split; reflexivity |].
  destruct Hstep as [o s | h c s Hc Hlt | s].
  - destruct (run_op_releases o s) as [H1 H2]. rewrite H1. auto.
  - auto.
  - unfold __del__. destruct (negb (_connection_is_closed s)); [| auto].
    destruct (conn (self s)); auto.
Qed.



(** X9.  An [insert_dataframe] that returns has sent the rows of the frame
    in order, in pages of at least one and at most 50000 rows, one statement
    per page on the cursor of [self.conn], and the number of pages is the
    number of rows divided by 50000, rounded up. *)
Theorem insert_dataframe_sends_the_rows_in_pages
    (df : DataFrame) (table_name : string) (table_schema : option string)
    (s : Sys DB) :
  fst (insert_dataframe df table_name table_schema s) = inr tt ->
  exists h,
    conn (self (snd (insert_dataframe df table_name table_schema s))) = Some h
    /\ List.filter is_round_trip
         (new_calls s (snd (insert_dataframe df table_name table_schema s)))
       = map (fun page =>
                CRoundTrip h (insert_statement df table_name table_schema)
                  page None)
             (pages_of df)
    /\ concat (pages_of df) = values df
    /\ Forall (fun page => (1 <= length page)%nat
                           /\ Z.of_nat (length page) <= 50000)
         (pages_of df)
    /\ Z.of_nat (length (pages_of df))
       = (Z.of_nat (length (values df)) + 49999) / 50000.
Proof.
  intros Hr.
  destruct (_check_and_reconnect s) as [[e | []] s1] eqn:Hc.
  { unfold insert_dataframe, bind in Hr. rewrite Hc in Hr. discriminate. }
  destruct (check_leaves_connection s s1 Hc) as [h Hh].
  destruct (check_sends_no_page s) as (n0 & Hn0 & Hnone). rewrite Hc in Hn0.
  simpl in Hn0.
  destruct (insert_dataframe_run df table_name table_schema s s1 h Hc Hh)
    as (Hs & _ & _ & _ & Hrun).
  exists h. split; [rewrite Hs; exact Hh |].
  assert (Hsize : Z.of_nat (Z.to_nat 50000) = 50000) by (apply Z2Nat.id; lia).
  split; [| split; [| split]].
  - destruct (run_pages _ _ _) as [e | d];
      destruct Hrun as (Hr' & _ & Hcalls & _); [congruence |].
    erewrite new_calls_app.
    2:{ rewrite Hcalls, Hn0, <- app_assoc. reflexivity. }
    rewrite List.filter_app. simpl. rewrite List.filter_app. simpl.
    rewrite app_nil_r.
    rewrite Hnone. simpl.
    generalize (pages_of df). intros pages.
    induction pages as [| page pages IH]; simpl; [reflexivity |].
    rewrite IH. reflexivity.
  - unfold pages_of. rewrite paginate_concat. reflexivity.
  - unfold pages_of.
    pose proof (paginate_sizes (Z.to_nat 50000) (values df) []
                  (Z.to_nat 50000)) as Hp.
    eapply Forall_impl; [apply Hp; simpl; lia |].
    intros page [H1 H2]. split; [exact H1 | lia].
  - unfold pages_of. rewrite paginate_count by (simpl; lia).
    rewrite Nat2Z.inj_div, Hsize. f_equal.
    change (length (@nil (list pyval))) with 0%nat. lia.
Qed.



(** X12.  In every store reachable from a new controller the configuration
    is the five arguments the constructor got, and every connect call made
    so far was made with them. *)
Theorem connects_use_the_constructor_arguments
    (host : string + Z) (port : Z) (user password database : string)
    (d0 : DB) (s : Sys DB) :
  reachable (__init__ host port user password database) d0 s ->
  config (self s) = mkConfig host port user password database
  /\ Forall (connects_with (mkConfig host port user password database))
       (calls (world s)).
Proof.
  induction 1 as [| s s' _ [IHc IHf] Hstep]; [split; [reflexivity | constructor] |].
  destruct Hstep as [o s | h c s Hc Hlt | s].
  - destruct (run_op_as_check o s) as (Hs & _ & _).
    destruct (check_keeps_store s) as (_ & _ & _ & _ & _ & Hcfg).
    split; [rewrite Hs, Hcfg; exact IHc |].
    pose proof (run_op_after_check o s) as Ha.
    assert (Hcalls : Forall (connects_with (mkConfig host port user password database))
                       (calls (world (snd (_check_and_reconnect s))))).
    { destruct (check_cases s) as [_ | e _ _ | _ _]; simpl; [exact IHf | |];
        apply Forall_app; (split; [exact IHf |]);
        constructor; try constructor; simpl; exact IHc. }
    destruct (_check_and_reconnect s) as [[e | []] s1]; simpl in *.
    + rewrite Ha. exact Hcalls.
    + destruct Ha as (_ & _ & _ & n & Hn & Hf & _). rewrite Hn.
      apply Forall_app. split; [exact Hcalls |].
      eapply Forall_impl; [exact Hf |].
      intros [] Hx; simpl in *; try exact I. discriminate.
  - split; assumption.
  - unfold __del__. destruct (negb (_connection_is_closed s)); [| auto].
    destruct (conn (self s)); [| auto]. simpl. split; [exact IHc |].
    apply Forall_app. split; [exact IHf | repeat constructor].
Qed.


(** X17.  Nothing that can happen to a controller resets its reconnect
    state: once set, [is_reconnect] stays set, and [reconnect_number] never
    decreases and grows by at most 1 at a time. *)
Theorem reconnect_state_only_grows (s s' : Sys DB) :
  step s s' ->
  (is_reconnect (self s) = true -> is_reconnect (self s') = true)
  /\ reconnect_number (self s) <= reconnect_number (self s')
     <= reconnect_number (self s) + 1.
Proof.
  intros Hstep. destruct Hstep as [o s | h c s Hc Hlt | s].
  - destruct (run_op_as_check o s) as (Hs & _ & _). rewrite Hs.
    destruct (check_cases s) as [_ | e _ _ | _ _]; simpl; unfold counted;
      destruct (is_reconnect (self s)); simpl; split; auto; lia.
  - simpl. split; [auto | lia].
  - unfold __del__. destruct (negb (_connection_is_closed s));
      [destruct (conn (self s)) |]; simpl; split; auto; lia.
Qed.

End Uses.

(** ** More on the texts the controller writes *)

Section MoreTexts.

(** *** When [json.dumps] raises *)





(** *** The row count of the log *)

Lemma without_underscores_list (l : list ascii) :
  without_underscores (string_of_list_ascii l)
  = string_of_list_ascii (List.filter not_underscore l).
Proof.
  induction l as [| c l IH]; simpl; [reflexivity |].
  unfold not_underscore at 1. destruct (N_of_ascii c =? 95)%N; simpl;
    rewrite IH; reflexivity.
Qed.

Lemma group_thousands_digits (ds : list ascii) (filled : nat) :
  List.filter not_underscore (group_thousands ds filled)
  = List.filter not_underscore ds.
Proof.
  revert filled. induction ds as [| d ds IH]; intros filled; simpl;
    [reflexivity |].
  destruct (filled =? 3)%nat; simpl; rewrite IH; reflexivity.
Qed.

Lemma without_underscores_uint (u : uint) :
  without_underscores (NilEmpty.string_of_uint u) = NilEmpty.string_of_uint u.
Proof.
  induction u; simpl; try rewrite IHu; reflexivity.
Qed.

Lemma without_underscores_int_repr (z : Z) :
  without_underscores (int_repr z) = int_repr z.
Proof.
  unfold int_repr. destruct z as [| p | p]; simpl; [reflexivity | |];
    pose proof (to_uint_nonzero_head p) as Hp;
    rewrite (string_of_uint_nonzero_head _ Hp);
    rewrite without_underscores_uint; reflexivity.
Qed.

(** X14.  The row count of the log, its underscores taken out, is the
    decimal numeral [int.__repr__] gives for the number: the format [_d]
    adds separators and changes no digit. *)
Theorem format_underscore_d_keeps_the_digits (n : Z) :
  without_underscores (format_underscore_d n) = int_repr n.
Proof.
  assert (Hgrouped : forall z,
    without_underscores
      (string_of_list_ascii
         (rev (group_thousands (rev (list_ascii_of_string (int_repr z))) 0)))
    = int_repr z).
  { intros z. rewrite without_underscores_list, List.filter_rev,
      group_thousands_digits, List.filter_rev, rev_involutive.
    rewrite <- without_underscores_list, string_of_list_ascii_of_string.
    apply without_underscores_int_repr. }
  unfold format_underscore_d. destruct n as [| p | p].
  - reflexivity.
  - change (Z.pos p <? 0) with false. cbv iota.
    change (Z.abs (Z.pos p)) with (Z.pos p). apply Hgrouped.
  - change (Z.neg p <? 0) with true. cbv iota.
    change (Z.abs (Z.neg p)) with (Z.pos p).
    change (without_underscores (String "-" ?x))
      with (String "-" (without_underscores x)).
    rewrite Hgrouped. reflexivity.
Qed.

(** *** One line of text *)




















End MoreTexts.

(** ** Runs of the model *)

Module Runs.


Lemma one_connect_attempt_and_no_retry_run :
  _connection_is_closed (Demo.fresh Demo.unreachable_server) = true
  /\ Demo.connect (config Demo.unreachable_server) (initial_world [])
     = Some (DriverError "OperationalError" "connection refused")
  /\ fst (run_op (drv := Demo.driver) (OpSelect "SELECT a FROM t")
            (Demo.fresh Demo.unreachable_server))
     = inl (DriverError "OperationalError" "connection refused")
  /\ new_calls (Demo.fresh Demo.unreachable_server)
       (snd (run_op (drv := Demo.driver) (OpSelect "SELECT a FROM t")
               (Demo.fresh Demo.unreachable_server)))
     = [CConnect (config Demo.unreachable_server)
          (Some (DriverError "OperationalError" "connection refused"))].
Proof.
  split; [reflexivity |]. split; [reflexivity |].
  destruct (one_connect_attempt_and_no_retry (drv := Demo.driver)
              (Demo.fresh Demo.unreachable_server) (OpSelect "SELECT a FROM t"))
    as [_ H].
  destruct (H (DriverError "OperationalError" "connection refused")
              eq_refl eq_refl) as (H1 & H2 & _).
  split; [exact H1 | exact H2].
Defined.

Lemma after_delete_reachable :
  reachable (drv := Demo.driver) Demo.good [] Demo.after_delete.
Proof.
  exact (reach_step _ _ _ _ (reach_init _ _) (step_op _ _)).
Defined.

Lemma after_two_failures_reachable :
  reachable (drv := Demo.driver) Demo.unreachable_server [] Demo.after_two_failures.
Proof.
  exact (reach_step _ _ _ _
           (reach_step _ _ _ _ (reach_init _ _) (step_op _ _)) (step_op _ _)).
Defined.

Lemma at_most_one_open_connection_run :
  reachable (drv := Demo.driver) Demo.good [] Demo.after_delete
  /\ (forall h, is_open (world Demo.after_delete) h -> conn (self Demo.after_delete) = Some h)
  /\ is_open (world Demo.after_delete) 0%nat.
Proof.
  split; [exact after_delete_reachable |]. split; [| reflexivity].
  exact (proj1 (proj2 (at_most_one_open_connection (drv := Demo.driver)
                         (inl "localhost") 5432 "postgres" "secret" "main" []
                         Demo.after_delete after_delete_reachable))).
Defined.

Lemma reconnect_number_counts_connect_calls_run :
  reachable (drv := Demo.driver) Demo.unreachable_server [] Demo.after_two_failures
  /\ is_reconnect (self Demo.after_two_failures) = true
  /\ reconnect_number (self Demo.after_two_failures)
     = Z.of_nat (connect_attempts (world Demo.after_two_failures)) - 1.
Proof.
  split; [exact after_two_failures_reachable |]. split; [reflexivity |].
  exact (proj2 (proj1 (proj2 (reconnect_number_counts_connect_calls
                                (drv := Demo.driver)
                                (inl "localhost") 6543 "postgres" "secret" "main"
                                [] Demo.after_two_failures
                                after_two_failures_reachable)) eq_refl)).
Defined.

(** C10 as stated fails: after two operations that could not connect,
    [reconnect_number] is 1 although no connection was ever opened. *)
Lemma reconnect_number_counts_failed_connects :
  reachable (drv := Demo.driver) Demo.unreachable_server [] Demo.after_two_failures
  /\ reconnect_number (self Demo.after_two_failures) = 1
  /\ conn (self Demo.after_two_failures) = None
  /\ handles (world Demo.after_two_failures) = []
  /\ calls (world Demo.after_two_failures)
     = [CConnect (config Demo.unreachable_server)
          (Some (DriverError "OperationalError" "connection refused"));
        CConnect (config Demo.unreachable_server)
          (Some (DriverError "OperationalError" "connection refused"))].
Proof.
  split; [exact after_two_failures_reachable |]. repeat split.
Qed.







End Runs.

(** ** More runs of the model *)

Module MoreRuns.

Lemma del_closes_the_connection_run :
  reachable (drv := Demo.driver) Demo.good [] Demo.after_delete
  /\ _connection_is_closed Demo.after_delete = false
  /\ _connection_is_closed (__del__ Demo.after_delete) = true
  /\ __del__ (__del__ Demo.after_delete) = __del__ Demo.after_delete.
Proof.
  split; [exact Runs.after_delete_reachable |]. split; [reflexivity |].
  destruct (del_closes_the_connection (drv := Demo.driver)
              (inl "localhost") 5432 "postgres" "secret" "main" []
              Demo.after_delete Runs.after_delete_reachable)
    as (H1 & _ & _ & _ & _ & H6).
  split; [exact H1 | exact H6].
Defined.




Lemma next_operation_reuses_the_connection_run :
  fst (run_op (drv := Demo.driver) (OpExecute "DELETE FROM t")
         (Demo.fresh Demo.good))
  = inr RNone
  /\ _connection_is_closed Demo.after_delete = false
  /\ connect_attempts
       (world (snd (run_op (drv := Demo.driver) (OpSelect "SELECT a FROM t")
                      Demo.after_delete)))
     = connect_attempts (world Demo.after_delete).
Proof.
  split; [reflexivity |].
  destruct (next_operation_reuses_the_connection (drv := Demo.driver)
              (OpExecute "DELETE FROM t") (OpSelect "SELECT a FROM t")
              (Demo.fresh Demo.good) RNone eq_refl)
    as (H1 & H2 & _).
  split; [exact H1 | exact H2].
Defined.

Lemma no_cursor_or_transaction_left_open_run :
  reachable (drv := Demo.driver) Demo.good [] Demo.after_delete
  /\ cursors (world Demo.after_delete) = 0%nat
  /\ txn (world Demo.after_delete) = None.
Proof.
  split; [exact Runs.after_delete_reachable |].
  exact (no_cursor_or_transaction_left_open (drv := Demo.driver)
           (inl "localhost") 5432 "postgres" "secret" "main" []
           Demo.after_delete Runs.after_delete_reachable).
Defined.


Lemma insert_dataframe_sends_the_rows_in_pages_run :
  fst (insert_dataframe (drv := Demo.driver) Demo.small_frame "events" None
         (Demo.fresh Demo.good))
  = inr tt
  /\ exists h,
       conn (self Demo.after_small_insert) = Some h
       /\ List.filter is_round_trip
            (new_calls (Demo.fresh Demo.good) Demo.after_small_insert)
          = map (fun page =>
                   CRoundTrip h (insert_statement Demo.small_frame "events" None)
                     page None)
                (pages_of Demo.small_frame)
       /\ concat (pages_of Demo.small_frame) = values Demo.small_frame
       /\ Forall (fun page => (1 <= length page)%nat
                              /\ Z.of_nat (length page) <= 50000)
            (pages_of Demo.small_frame)
       /\ Z.of_nat (length (pages_of Demo.small_frame))
          = (Z.of_nat (length (values Demo.small_frame)) + 49999) / 50000.
Proof.
  split; [reflexivity |].
  exact (insert_dataframe_sends_the_rows_in_pages (drv := Demo.driver)
           Demo.small_frame "events" None (Demo.fresh Demo.good) eq_refl).
Defined.



Lemma connects_use_the_constructor_arguments_run :
  reachable (drv := Demo.driver) Demo.unreachable_server []
    Demo.after_two_failures
  /\ Forall (connects_with (mkConfig (inl "localhost") 6543 "postgres" "secret"
                              "main"))
       (calls (world Demo.after_two_failures)).
Proof.
  split; [exact Runs.after_two_failures_reachable |].
  exact (proj2 (connects_use_the_constructor_arguments (drv := Demo.driver)
                  (inl "localhost") 6543 "postgres" "secret" "main" []
                  Demo.after_two_failures Runs.after_two_failures_reachable)).
Defined.




Lemma reconnect_state_only_grows_run :
  step (drv := Demo.driver) Demo.lost_connection
    (snd (run_op (drv := Demo.driver) (OpSelect "SELECT a FROM t")
            Demo.lost_connection))
  /\ is_reconnect (self Demo.lost_connection) = true
  /\ is_reconnect
       (self (snd (run_op (drv := Demo.driver) (OpSelect "SELECT a FROM t")
                     Demo.lost_connection)))
     = true.
Proof.
  split; [apply step_op |]. split; [reflexivity |].
  exact (proj1 (reconnect_state_only_grows (drv := Demo.driver)
                  Demo.lost_connection _ (step_op _ _)) eq_refl).
Defined.

End MoreRuns.
